(** * prefect_azure.blob_storage: the three Blob Storage tasks

    A shallow embedding of [src/prefect_azure/blob_storage.py]: the
    [aclosing] context manager and the tasks [blob_storage_download],
    [blob_storage_upload] and [blob_storage_list].

    The tasks are coroutines that call three collaborators: the run logger
    of the orchestration framework, Python's [uuid] module, and the Azure
    SDK reached through the credentials object.  They are embedded in a
    monad with state (the SDK's state and the entropy consumed so far),
    exceptions (Python's, raised by the SDK or by the interpreter) and a
    chronological record of every call that leaves the task.  The SDK and
    the credentials object are an interface ([Sdk]): every theorem holds
    for every implementation of it, and an in-memory double ([MemSdk])
    provides concrete runs.

    The [@task] decorator and the scheduling of coroutines are the
    framework's; the embedding is of the decorated functions, run to
    completion inside a task run (so [get_run_logger()] finds its
    context). *)

From Stdlib Require Import NArith Ascii.
From stdpp Require Import base option list strings gmap.

#[local] Open Scope string_scope.
#[local] Open Scope list_scope.

(** ** Values *)

(** Python [bytes]. *)
Definition bytes : Type := list Byte.byte.

(** Python exceptions: those of the SDK ([azure.core.exceptions], by class
    name and message) and the one the interpreter raises when a local
    variable is read before it is bound. *)
Inductive exn : Type :=
| SdkError (cls message : string)
| UnboundLocalError (name : string).

#[export] Instance exn_eq_dec : EqDecision exn.
Proof. solve_decision. Defined.

(** What a call ends in: [return a] or [raise e]. *)
Inductive outcome (A : Type) : Type :=
| Ret (a : A)
| Raise (e : exn).
Arguments Ret {A} a.
Arguments Raise {A} e.

(** A log record as [logging] keeps it: the format string and its
    arguments, [None] standing for Python's [None]. *)
Record LogRecord : Type := { msg : string; args : list (option string) }.

(** An asynchronous iterator, by what [__anext__] does next: it returns an
    item, raises [StopAsyncIteration], or raises an error.  A container
    holds finitely many blobs, so an enumeration comes to one of the two
    ends; fetching its pages reads the service and changes nothing the
    tasks observe. *)
Inductive AsyncIter (X : Type) : Type :=
| Yield (x : X) (rest : AsyncIter X)
| Stop
| Throw (e : exn).
Arguments Yield {X} x rest.
Arguments Stop {X}.
Arguments Throw {X} e.

(** The items an iterator returns before it stops or fails. *)
Fixpoint yielded {X} (it : AsyncIter X) : list X :=
  match it with
  | Yield x rest => x :: yielded rest
  | Stop | Throw _ => []
  end.

(** The error the iteration ends in, if it does not end in
    [StopAsyncIteration]. *)
Fixpoint failure {X} (it : AsyncIter X) : option exn :=
  match it with
  | Yield _ rest => failure rest
  | Stop => None
  | Throw e => Some e
  end.

(** The iterator over a list. *)
Fixpoint iter_of_list {X} (xs : list X) : AsyncIter X :=
  match xs with
  | [] => Stop
  | x :: xs' => Yield x (iter_of_list xs')
  end.

(** ** The calls that leave a task *)

(** Methods of the credentials object and of the SDK's clients. *)
Inductive Call : Type :=
| GetBlobClient (container blob : string)
| AEnter
| AExit
| DownloadBlob
| ContentAsBytes
| UploadBlob (data : bytes) (overwrite : bool)
| GetContainerClient (container : string)
| ListBlobs
| ANext
| Close.

Inductive Event : Type :=
| Logged (record : LogRecord)          (* logger.info(...) *)
| Generated (key : string)             (* str(uuid.uuid4()) *)
| Returned (call : Call)               (* an SDK call that returned *)
| Raised (call : Call) (e : exn)       (* an SDK call that raised [e] *)
| StopAsyncIteration.                  (* __anext__ on an exhausted iterator *)

(** ** [uuid.uuid4()] and [str] of a UUID

    CPython's [uuid4] reads 16 random bytes and sets the version and
    variant bits; [str] prints the 128 bits as 32 hexadecimal digits in
    groups of 8-4-4-4-12. *)

Definition hex_digit (d : N) : ascii :=
  match d with
  | 0 => "0" | 1 => "1" | 2 => "2" | 3 => "3" | 4 => "4" | 5 => "5"
  | 6 => "6" | 7 => "7" | 8 => "8" | 9 => "9" | 10 => "a" | 11 => "b"
  | 12 => "c" | 13 => "d" | 14 => "e" | _ => "f"
  end%N%char.

(** ['%0<width>x' % n] for [n < 16 ^ width]. *)
Fixpoint hex_fixed (width : nat) (n : N) : string :=
  match width with
  | O => ""
  | S width' => hex_fixed width' (n / 16)%N +:+ String (hex_digit (n mod 16)%N) ""
  end.

(** The integer of [UUID(bytes=rand, version=4)]. *)
Definition uuid4_int (rand : N) : N :=
  let int := (rand mod 2 ^ 128)%N in
  let int := N.ldiff int (N.shiftl 0xc000 48) in
  let int := N.lor int (N.shiftl 0x8000 48) in
  let int := N.ldiff int (N.shiftl 0xf000 64) in
  N.lor int (N.shiftl 4 76).

Definition uuid_str (int : N) : string :=
  let hex := hex_fixed 32 int in
  String.substring 0 8 hex +:+ "-" +:+ String.substring 8 4 hex +:+ "-" +:+
  String.substring 12 4 hex +:+ "-" +:+ String.substring 16 4 hex +:+ "-" +:+
  String.substring 20 12 hex.

(** [str(uuid.uuid4())] when [os.urandom(16)] reads [rand]. *)
Definition uuid4_str (rand : N) : string := uuid_str (uuid4_int rand).

(** ** The SDK and the credentials object

    [prefect_azure.credentials] and [azure.storage.blob.aio] are not part
    of the source file: their methods are the fields of this interface.
    An SDK method takes the SDK's state (the storage service, its
    connections) to an outcome and a new state.  The clients' [__aexit__]
    returns [None]. *)
Class Sdk : Type := {
  sdk_state : Type;
  Credentials : Type;
  BlobClient : Type;
  StorageStreamDownloader : Type;
  ContainerClient : Type;
  BlobProperties : Type;
  get_blob_client :
    Credentials → string → string → sdk_state → outcome BlobClient * sdk_state;
  blob_aenter : BlobClient → sdk_state → outcome BlobClient * sdk_state;
  blob_aexit : BlobClient → option exn → sdk_state → outcome unit * sdk_state;
  download_blob :
    BlobClient → sdk_state → outcome StorageStreamDownloader * sdk_state;
  content_as_bytes :
    StorageStreamDownloader → sdk_state → outcome bytes * sdk_state;
  upload_blob :
    BlobClient → bytes → bool → sdk_state → outcome unit * sdk_state;
  get_container_client :
    Credentials → string → sdk_state → outcome ContainerClient * sdk_state;
  list_blobs :
    ContainerClient → sdk_state → outcome (AsyncIter BlobProperties) * sdk_state;
  container_client_close : ContainerClient → sdk_state → outcome unit * sdk_state
}.

(** ** The monad of tasks *)

Section Tasks.
Context `{Sdk}.

(** The world a task runs in: the SDK's state, the bytes [os.urandom]
    will return ([entropy n] is its [n]-th read of 16 bytes, big-endian)
    and the number of reads so far. *)
Record World : Type := { sdk : sdk_state; entropy : nat → N; draws : nat }.

(** A finished call: its outcome, the world it leaves and the events it
    produced, oldest first. *)
Record Run (A : Type) : Type :=
  { result : outcome A; final : World; events : list Event }.
Arguments result {A} _.
Arguments final {A} _.
Arguments events {A} _.

Definition M (A : Type) : Type := World → Run A.

Definition ret {A} (a : A) : M A :=
  fun w => {| result := Ret a; final := w; events := [] |}.

Definition raise {A} (e : exn) : M A :=
  fun w => {| result := Raise e; final := w; events := [] |}.

(** [try: m] followed by [on_ret] when [m] returns and by [on_exc] when it
    raises: the shape of Python's [try] statement. *)
Definition try_catch {A B} (m : M A) (on_ret : A → M B) (on_exc : exn → M B) : M B :=
  fun w =>
    let '{| result := r; final := w1; events := tr1 |} := m w in
    let '{| result := r'; final := w2; events := tr2 |} :=
      match r with
      | Ret a => on_ret a w1
      | Raise e => on_exc e w1
      end in
    {| result := r'; final := w2; events := tr1 ++ tr2 |}.

Definition bind {A B} (m : M A) (f : A → M B) : M B :=
  try_catch m f raise.

#[export] Instance M_ret : MRet M := @ret.
#[export] Instance M_bind : MBind M := fun A B f m => bind m f.

(** [logger.info(msg, *args)] on the run logger. *)
Definition logger_info (msg : string) (args : list (option string)) : M unit :=
  fun w => {| result := Ret tt; final := w;
              events := [Logged {| msg := msg; args := args |}] |}.

(** [str(uuid.uuid4())]. *)
Definition uuid4 : M string :=
  fun w =>
    let key := uuid4_str (entropy w (draws w)) in
    {| result := Ret key;
       final := {| sdk := sdk w; entropy := entropy w; draws := S (draws w) |};
       events := [Generated key] |}.

(** A call of an SDK method. *)
Definition sdk_call {A} (call : Call) (f : sdk_state → outcome A * sdk_state) : M A :=
  fun w =>
    let '(r, s) := f (sdk w) in
    {| result := r;
       final := {| sdk := s; entropy := entropy w; draws := draws w |};
       events := [match r with
                  | Ret _ => Returned call
                  | Raise e => Raised call e
                  end] |}.

End Tasks.

Arguments result {_ A} _.
Arguments final {_ A} _.
Arguments events {_ A} _.

(** ** Context managers *)

Section Source.
Context `{Sdk}.

(** An asynchronous context manager: [__aenter__] and [__aexit__], the
    latter given the exception that left the block ([None] when the block
    completed) and returning whether its result is true, that is, whether
    the exception is to be swallowed. *)
Record AsyncContextManager (T : Type) : Type :=
  { aenter : M T; aexit : option exn → M bool }.
Arguments aenter {T} _.
Arguments aexit {T} _ _.

(** [async with expr as value: block], as the language reference expands
    it: the manager is evaluated and entered; the block runs; if it raises,
    [__aexit__] gets the exception and the exception is raised again unless
    [__aexit__] returned a true value; if it completes, [__aexit__] gets
    [None].  The statement yields the block's result, or [None] when an
    exception was swallowed. *)
Definition async_with {T A}
    (expr : M (AsyncContextManager T)) (block : T → M A) : M (option A) :=
  manager ← expr;
  value ← aenter manager;
  try_catch (block value)
    (fun a => _ ← aexit manager None; mret (Some a))
    (fun e => swallow ← aexit manager (Some e);
              if swallow : bool then mret None else raise e).

(** Objects with a [close()] coroutine method. *)
Class Closable (T : Type) : Type := close : T → M unit.

(** [class aclosing(AbstractAsyncContextManager)]: [__aenter__] returns
    [self.thing]; [__aexit__] awaits [self.thing.close()] and returns
    [None]. *)
Definition aclosing {T} `{Closable T} (thing : T) : AsyncContextManager T :=
  {| aenter := mret thing;
     aexit := fun _exc_info => _ ← close thing; mret false |}.

(** A blob client is its own context manager. *)
Definition blob_client_manager (client : BlobClient) : AsyncContextManager BlobClient :=
  {| aenter := sdk_call AEnter (blob_aenter client);
     aexit := fun exc_info =>
       _ ← sdk_call AExit (blob_aexit client exc_info); mret false |}.

#[export] Instance container_client_closable : Closable ContainerClient :=
  fun client => sdk_call Close (container_client_close client).

(** [[x async for x in it]]: the list starts empty and every item
    [__anext__] returns is appended, until [StopAsyncIteration]. *)
Fixpoint async_list_comprehension {X} (it : AsyncIter X) (acc : list X) : M (list X) :=
  match it with
  | Yield x rest =>
      fun w =>
        let '{| result := r; final := w'; events := tr |} :=
          async_list_comprehension rest (acc ++ [x]) w in
        {| result := r; final := w'; events := Returned ANext :: tr |}
  | Stop =>
      fun w => {| result := Ret acc; final := w; events := [StopAsyncIteration] |}
  | Throw e =>
      fun w => {| result := Raise e; final := w; events := [Raised ANext e] |}
  end.

(** ** The tasks *)

Definition blob_storage_download
    (container blob : string) (azure_credentials : Credentials) : M bytes :=
  _ ← logger_info "Downloading blob from container %s with key %s"
        [Some container; Some blob];
  bound ← async_with
    (client ← sdk_call (GetBlobClient container blob)
                (get_blob_client azure_credentials container blob);
     mret (blob_client_manager client))
    (fun blob_client =>
       blob_obj ← sdk_call DownloadBlob (download_blob blob_client);
       sdk_call ContentAsBytes (content_as_bytes blob_obj));
  match bound with
  | Some output => mret output
  | None => raise (UnboundLocalError "output")
  end.

Definition blob_storage_upload
    (data : bytes) (container : string) (azure_credentials : Credentials)
    (blob : option string) (overwrite : bool) : M string :=
  _ ← logger_info "Uploading blob to container %s with key %s"
        [Some container; blob];
  blob ← match blob with
          | None => uuid4
          | Some key => mret key
          end;
  _ ← async_with
    (client ← sdk_call (GetBlobClient container blob)
                (get_blob_client azure_credentials container blob);
     mret (blob_client_manager client))
    (fun blob_client =>
       sdk_call (UploadBlob data overwrite) (upload_blob blob_client data overwrite));
  mret blob.

Definition blob_storage_list
    (container : string) (azure_credentials : Credentials) : M (list BlobProperties) :=
  _ ← logger_info "Listing blobs from container %s" [Some container];
  bound ← async_with
    (client ← sdk_call (GetContainerClient container)
                (get_container_client azure_credentials container);
     mret (aclosing client))
    (fun container_client =>
       pages ← sdk_call ListBlobs (list_blobs container_client);
       async_list_comprehension pages []);
  match bound with
  | Some blobs => mret blobs
  | None => raise (UnboundLocalError "blobs")
  end.

(** [try: body finally: finalizer], as the language reference defines it:
    the finalizer runs after the body, whether the body completed or
    raised; then the body's result stands, or its exception is raised
    again; an exception of the finalizer replaces either. *)
Definition try_finally {A} (body : M A) (finalizer : M unit) : M A :=
  try_catch body
    (fun a => _ ← finalizer; mret a)
    (fun e => _ ← finalizer; raise e).

End Source.

Arguments aenter {_ T} _.
Arguments aexit {_ T} _ _.

(** ** Reading a run's events *)

(** The errors the SDK raised, oldest first. *)
Definition failures (tr : list Event) : list exn :=
  omap (fun ev => match ev with Raised _ e => Some e | _ => None end) tr.

(** The records written to the log. *)
Definition log_of (tr : list Event) : list LogRecord :=
  omap (fun ev => match ev with Logged r => Some r | _ => None end) tr.

(** The keys [uuid4] generated. *)
Definition generated (tr : list Event) : list string :=
  omap (fun ev => match ev with Generated key => Some key | _ => None end) tr.

(** A handle is obtained when the credentials object returns a client:
    a blob client from [get_blob_client], the container client from
    [get_container_client]. *)
Definition is_obtain (ev : Event) : bool :=
  match ev with
  | Returned (GetBlobClient _ _) | Returned (GetContainerClient _) => true
  | _ => false
  end.

(** A handle is released by a call of its [__aexit__] or [close()]. *)
Definition is_release (ev : Event) : bool :=
  match ev with
  | Returned AExit | Raised AExit _ | Returned Close | Raised Close _ => true
  | _ => false
  end.

(** Calls of the SDK that write to the storage service. *)
Definition is_write (ev : Event) : bool :=
  match ev with
  | Returned (UploadBlob _ _) | Raised (UploadBlob _ _) _ => true
  | _ => false
  end.

Definition is_failure (ev : Event) : bool :=
  match ev with Raised _ _ => true | _ => false end.

(** After the first error of the SDK the task makes no further call,
    except the one release of the handle it holds: no call is retried. *)
Fixpoint no_retry (tr : list Event) : bool :=
  match tr with
  | [] => true
  | ev :: rest =>
      if is_failure ev then
        match rest with
        | [] => true
        | [ev'] => is_release ev'
        | _ => false
        end
      else no_retry rest
  end.

(** The events of a list comprehension over [it]. *)
Fixpoint anext_events {X} (it : AsyncIter X) : list Event :=
  match it with
  | Yield _ rest => Returned ANext :: anext_events rest
  | Stop => [StopAsyncIteration]
  | Throw e => [Raised ANext e]
  end.

(** ** What the properties speak of *)

(** What "every error of the SDK reaches the caller unchanged" says of a
    run, read literally: whichever error the SDK raised during the run,
    the run ends raising it. *)
Definition every_failure_observed `{Sdk} {A} (r : Run A) : Prop :=
  ∀ e, e ∈ failures (events r) → result r = Raise e.

(** What holds of every run: an exception that leaves the task is the
    last error the SDK raised, as raised; a task that returns has seen no
    error; an error that is the only one of its run is the one the caller
    observes; and no call is made again after an error. *)
Definition surfaces_errors `{Sdk} {A} (r : Run A) : Prop :=
  (∀ e, result r = Raise e → last (failures (events r)) = Some e)
  ∧ (∀ a, result r = Ret a → failures (events r) = [])
  ∧ (∀ e, failures (events r) = [e] → result r = Raise e)
  ∧ no_retry (events r) = true.

(** The key an upload works with: the caller's, or the one [uuid4] makes
    of the next 16 random bytes. *)
Definition resolved_key `{Sdk} (w : World) (blob : option string) : string :=
  match blob with
  | Some key => key
  | None => uuid4_str (entropy w (draws w))
  end.

(** What the SDK's calls do to the blobs the service holds is the SDK's
    contract, not the tasks'.  It is stated over a view of the SDK's state
    and objects: the blobs the service holds, by (container, key); the
    blob a client is scoped to; the bytes a downloader carries; the
    container a container client is scoped to; the blob a metadata record
    names. *)
Record View `{Sdk} : Type := {
  contents : sdk_state → gmap (string * string) bytes;
  blob_scope : BlobClient → string * string;
  payload : StorageStreamDownloader → bytes;
  container_scope : ContainerClient → string;
  record_name : BlobProperties → string
}.

(** [records] holds one record for every blob of [container] in [m] and
    no other record. *)
Definition enumerates `{Sdk} (V : View) (container : string)
    (m : gmap (string * string) bytes) (records : list BlobProperties) : Prop :=
  NoDup (record_name V <$> records)
  ∧ ∀ key, key ∈ record_name V <$> records ↔ is_Some (m !! (container, key)).

(** The contract: obtaining, entering, leaving and closing a client leave
    the blobs alone; a blob client is scoped to the pair it was asked for;
    a download that returns carries the bytes held at the client's scope;
    an upload that returns has put the data at the client's scope, and
    with [overwrite] false it returns only if nothing was held there; an
    upload that raises has changed nothing; a listing that runs to its end
    enumerates the container.  Nothing is said of when a call fails. *)
Record StorageContract `{Sdk} (V : View) : Prop := {
  get_blob_client_spec cred container blob s r s' :
    get_blob_client cred container blob s = (r, s') →
    contents V s' = contents V s
    ∧ ∀ client, r = Ret client → blob_scope V client = (container, blob);
  blob_aenter_spec client s r s' :
    blob_aenter client s = (r, s') →
    contents V s' = contents V s
    ∧ ∀ entered, r = Ret entered → blob_scope V entered = blob_scope V client;
  blob_aexit_spec client exc_info s r s' :
    blob_aexit client exc_info s = (r, s') → contents V s' = contents V s;
  download_blob_spec client s r s' :
    download_blob client s = (r, s') →
    contents V s' = contents V s
    ∧ ∀ blob_obj, r = Ret blob_obj →
        contents V s !! blob_scope V client = Some (payload V blob_obj);
  content_as_bytes_spec blob_obj s r s' :
    content_as_bytes blob_obj s = (r, s') →
    contents V s' = contents V s
    ∧ ∀ output, r = Ret output → output = payload V blob_obj;
  upload_blob_spec client data overwrite s r s' :
    upload_blob client data overwrite s = (r, s') →
    match r with
    | Ret _ =>
        contents V s' = <[blob_scope V client := data]> (contents V s)
        ∧ (overwrite = false → contents V s !! blob_scope V client = None)
    | Raise _ => contents V s' = contents V s
    end;
  get_container_client_spec cred container s r s' :
    get_container_client cred container s = (r, s') →
    contents V s' = contents V s
    ∧ ∀ client, r = Ret client → container_scope V client = container;
  list_blobs_spec client s r s' :
    list_blobs client s = (r, s') →
    contents V s' = contents V s
    ∧ ∀ pages, r = Ret pages → failure pages = None →
        enumerates V (container_scope V client) (contents V s) (yielded pages);
  container_client_close_spec client s r s' :
    container_client_close client s = (r, s') → contents V s' = contents V s
}.

(** The SDK calls on the path of a download leave [obs] as it is. *)
Definition reads_preserve `{Sdk} {X} (obs : sdk_state → X) : Prop :=
  (∀ cred container blob s, obs (get_blob_client cred container blob s).2 = obs s)
  ∧ (∀ client s, obs (blob_aenter client s).2 = obs s)
  ∧ (∀ client s, obs (download_blob client s).2 = obs s)
  ∧ (∀ blob_obj s, obs (content_as_bytes blob_obj s).2 = obs s)
  ∧ (∀ client exc_info s, obs (blob_aexit client exc_info s).2 = obs s).

(** What the property of generated keys says of an upload with the key
    omitted, read literally: it returns a key that was not in the
    container before, and a download of that key then returns the data. *)
Definition fresh_key_roundtrip `{Sdk} (V : View) (w : World)
    (data : bytes) (container : string) (cred : Credentials) (overwrite : bool) : Prop :=
  ∃ key,
    result (blob_storage_upload data container cred None overwrite w) = Ret key
    ∧ contents V (sdk w) !! (container, key) = None
    ∧ result (blob_storage_download container key cred
                (final (blob_storage_upload data container cred None overwrite w)))
      = Ret data.

(** The exception a with-statement passes to [__aexit__] after a block
    that ended in [r], and the event of an SDK call that ended in [r]. *)
Definition exc_of {A} (r : outcome A) : option exn :=
  match r with
  | Ret _ => None
  | Raise e => Some e
  end.

Definition call_event {A} (call : Call) (r : outcome A) : Event :=
  match r with
  | Ret _ => Returned call
  | Raise e => Raised call e
  end.

(** The world [w] with the SDK in state [s]. *)
Definition with_sdk `{Sdk} (w : World) (s : sdk_state) : World :=
  {| sdk := s; entropy := entropy w; draws := draws w |}.

(** The blocks of the three with-statements: lines 91-92, 151 and 196 of
    the source. *)
Definition download_block `{Sdk} (blob_client : BlobClient) : M bytes :=
  blob_obj ← sdk_call DownloadBlob (download_blob blob_client);
  sdk_call ContentAsBytes (content_as_bytes blob_obj).

Definition upload_block `{Sdk} (data : bytes) (overwrite : bool)
    (blob_client : BlobClient) : M unit :=
  sdk_call (UploadBlob data overwrite) (upload_blob blob_client data overwrite).

Definition list_block `{Sdk} (container_client : ContainerClient) :
    M (list BlobProperties) :=
  pages ← sdk_call ListBlobs (list_blobs container_client);
  async_list_comprehension pages [].

(** What [run], a task that after the events [pre] and in world [w]
    executes [async with get_blob_client(container, key) as c: block],
    does with the client, by what the SDK answers.  No client is
    obtained: nothing is entered or left.  A client is obtained and its
    [__aenter__] raises: the error leaves the task and the client is
    neither left nor closed.  The client is entered: the block runs on
    what [__aenter__] returned, and [__aexit__] is called on the client
    once, with the exception of the block if it raised, in the state the
    block left; that call is the task's last, and the block itself leaves
    nothing. *)
Definition blob_client_scoped `{Sdk} {A B} (cred : Credentials)
    (container key : string) (block : BlobClient → M A)
    (w : World) (pre : list Event) (run : Run B) : Prop :=
  match get_blob_client cred container key (sdk w) with
  | (Raise e, s1) =>
      result run = Raise e ∧ sdk (final run) = s1
      ∧ events run = pre ++ [Raised (GetBlobClient container key) e]
  | (Ret client, s1) =>
      match blob_aenter client s1 with
      | (Raise e, s2) =>
          result run = Raise e ∧ sdk (final run) = s2
          ∧ events run
            = pre ++ [Returned (GetBlobClient container key); Raised AEnter e]
      | (Ret entered, s2) =>
          let body := block entered (with_sdk w s2) in
          let '(r, s3) :=
            blob_aexit client (exc_of (result body)) (sdk (final body)) in
          sdk (final run) = s3
          ∧ events run
            = pre ++ [Returned (GetBlobClient container key); Returned AEnter]
              ++ events body ++ [call_event AExit r]
          ∧ forallb (fun ev => negb (is_release ev)) (events body) = true
      end
  end.

(** The same for [async with aclosing(get_container_client(container))
    as c: block].  No client is obtained: nothing is closed.  A client is
    obtained: the block runs on it, and [close()] is called on it once, in
    the state the block left; that call is the task's last. *)
Definition container_client_scoped `{Sdk} {A B} (cred : Credentials)
    (container : string) (block : ContainerClient → M A)
    (w : World) (pre : list Event) (run : Run B) : Prop :=
  match get_container_client cred container (sdk w) with
  | (Raise e, s1) =>
      result run = Raise e ∧ sdk (final run) = s1
      ∧ events run = pre ++ [Raised (GetContainerClient container) e]
  | (Ret client, s1) =>
      let body := block client (with_sdk w s1) in
      let '(r, s2) := container_client_close client (sdk (final body)) in
      sdk (final run) = s2
      ∧ events run
        = pre ++ [Returned (GetContainerClient container)]
          ++ events body ++ [call_event Close r]
      ∧ forallb (fun ev => negb (is_release ev)) (events body) = true
  end.

(** What "the handle a task obtained is released exactly once, before the
    task returns, on every exit path" says of the events of a run, read
    literally: if the credentials object returned a client, exactly one
    release is called, and it is the last event. *)
Definition every_handle_released (tr : list Event) : Prop :=
  existsb is_obtain tr = true →
  length (List.filter is_release tr) = 1
  ∧ ∃ rel, last tr = Some rel ∧ is_release rel = true.

(** The number of blobs the service holds in [container]. *)
Definition blobs_in (container : string) (m : gmap (string * string) bytes) : nat :=
  size (filter (fun entry : string * string * bytes => entry.1.1 = container) m).

(** ** An in-memory double of the SDK *)

Module Mem.

(** The blobs the service holds, by container and key, and a fault plan:
    the next SDK calls fail as the plan's entries say ([Some e]: the call
    raises [e]; [None], or no entry left: the call goes through). *)
Record state : Type :=
  { blobs : gmap (string * string) bytes; faults : list (option exn) }.

Record properties : Type := { name : string; size : nat }.

Definition ResourceExistsError : exn :=
  SdkError "ResourceExistsError" "The specified blob already exists.".
Definition ResourceNotFoundError : exn :=
  SdkError "ResourceNotFoundError" "The specified blob does not exist.".
Definition ServiceRequestError : exn :=
  SdkError "ServiceRequestError" "Cannot connect to host.".
Definition ClientAuthenticationError : exn :=
  SdkError "ClientAuthenticationError" "Server failed to authenticate the request.".

(** One SDK call: it fails if the plan says so, and runs [k] otherwise. *)
Definition tick {A} (k : state → outcome A * state) (s : state) : outcome A * state :=
  match faults s with
  | Some e :: plan => (Raise e, {| blobs := blobs s; faults := plan |})
  | None :: plan => k {| blobs := blobs s; faults := plan |}
  | [] => k s
  end.

Definition records (container : string) (m : gmap (string * string) bytes) :
    list properties :=
  (fun entry : string * string * bytes =>
     {| name := entry.1.2; size := length entry.2 |})
  <$> filter (fun entry : string * string * bytes => entry.1.1 = container)
        (map_to_list m).

Definition download (client : string * string) : state → outcome bytes * state :=
  tick (fun s =>
    match blobs s !! client with
    | Some content => (Ret content, s)
    | None => (Raise ResourceNotFoundError, s)
    end).

Definition upload (client : string * string) (data : bytes) (overwrite : bool) :
    state → outcome unit * state :=
  tick (fun s =>
    match blobs s !! client with
    | Some _ =>
        if overwrite
        then (Ret (), {| blobs := <[client := data]> (blobs s); faults := faults s |})
        else (Raise ResourceExistsError, s)
    | None => (Ret (), {| blobs := <[client := data]> (blobs s); faults := faults s |})
    end).

(** [list_blobs] returns a pager at once; a fault shows when the first
    page is fetched. *)
Definition pager (container : string) (s : state) :
    outcome (AsyncIter properties) * state :=
  match faults s with
  | Some e :: plan => (Ret (Throw e), {| blobs := blobs s; faults := plan |})
  | None :: plan =>
      (Ret (iter_of_list (records container (blobs s))),
       {| blobs := blobs s; faults := plan |})
  | [] => (Ret (iter_of_list (records container (blobs s))), s)
  end.

End Mem.

(** Modelled from the spec: the credentials provider and the vendor's
    clients, which the source file only calls.  A client is scoped to its
    (container, key) pair or to its container; a download fails when the
    blob is not found; an upload with [overwrite] false fails with a
    conflict when an object already exists at the key; a listing
    enumerates the blobs of the container.  Any call may also fail as the
    fault plan says (authentication, network). *)
#[export] Instance MemSdk : Sdk := {|
  sdk_state := Mem.state;
  Credentials := string;
  BlobClient := string * string;
  StorageStreamDownloader := bytes;
  ContainerClient := string;
  BlobProperties := Mem.properties;
  get_blob_client := fun _ container blob => Mem.tick (fun s => (Ret (container, blob), s));
  blob_aenter := fun client => Mem.tick (fun s => (Ret client, s));
  blob_aexit := fun _ _ => Mem.tick (fun s => (Ret (), s));
  download_blob := Mem.download;
  content_as_bytes := fun content => Mem.tick (fun s => (Ret content, s));
  upload_blob := Mem.upload;
  get_container_client := fun _ container => Mem.tick (fun s => (Ret container, s));
  list_blobs := Mem.pager;
  container_client_close := fun _ => Mem.tick (fun s => (Ret (), s))
|}.

(** The double's view: a client is the pair, or the container, it is
    scoped to, and a downloader is the bytes it carries. *)
Definition mem_view : View :=
  {| contents := Mem.blobs;
     blob_scope := fun client : string * string => client;
     payload := fun content : bytes => content;
     container_scope := fun container : string => container;
     record_name := Mem.name |}.

(** Python's [b"..."]. *)
Definition bytes_of (s : string) : bytes := String.list_byte_of_string s.

(** A service with three blobs in the container ["prefect"] and one in
    another, no fault planned, and an entropy source that reads 0, 1, 2,
    ... *)
Definition fixture : World :=
  {| sdk := {| Mem.blobs :=
                 list_to_map
                   [(("prefect", "prefect.txt"), bytes_of "prefect_works");
                    (("prefect", "a.csv"), bytes_of "1,2");
                    (("prefect", "b.csv"), bytes_of "3,4,5");
                    (("archive", "old.csv"), bytes_of "0")];
               Mem.faults := [] |};
     entropy := N.of_nat;
     draws := 0 |}.

(** The same service when fetching the first page of a listing fails and
    closing the container client fails after it. *)
Definition fixture_two_faults : World :=
  {| sdk := {| Mem.blobs := Mem.blobs (sdk fixture);
               Mem.faults := [None; Some Mem.ClientAuthenticationError;
                              Some Mem.ServiceRequestError] |};
     entropy := N.of_nat;
     draws := 0 |}.

(** A service that already holds a blob under the key [uuid4] makes of
    the next random bytes. *)
Definition fixture_collision : World :=
  {| sdk := {| Mem.blobs :=
                 list_to_map
                   [(("prefect", "00000000-0000-4000-8000-000000000000"),
                     bytes_of "old")];
               Mem.faults := [] |};
     entropy := fun _ => 0%N;
     draws := 0 |}.

(** The same service when entering the blob client fails: the second
    call of a task, after [get_blob_client]. *)
Definition fixture_enter_fault : World :=
  {| sdk := {| Mem.blobs := Mem.blobs (sdk fixture);
               Mem.faults := [None; Some Mem.ServiceRequestError] |};
     entropy := N.of_nat;
     draws := 0 |}.

(** The same service when leaving the blob client fails: the fourth call
    of a task, after [get_blob_client], [__aenter__] and the call of the
    block. *)
Definition fixture_exit_fault : World :=
  {| sdk := {| Mem.blobs := Mem.blobs (sdk fixture);
               Mem.faults := [None; None; None; Some Mem.ServiceRequestError] |};
     entropy := N.of_nat;
     draws := 0 |}.

(** The iterator that returns the items of a list and then fails. *)
Fixpoint iter_then_throw {X} (xs : list X) (e : exn) : AsyncIter X :=
  match xs with
  | [] => Throw e
  | x :: xs' => Yield x (iter_then_throw xs' e)
  end.

(** The double with a pager that loses its connection after the first
    page: it returns the records of the container and then fails. *)
Definition FlakySdk : Sdk := {|
  sdk_state := Mem.state;
  Credentials := string;
  BlobClient := string * string;
  StorageStreamDownloader := bytes;
  ContainerClient := string;
  BlobProperties := Mem.properties;
  get_blob_client := fun _ container blob => Mem.tick (fun s => (Ret (container, blob), s));
  blob_aenter := fun client => Mem.tick (fun s => (Ret client, s));
  blob_aexit := fun _ _ => Mem.tick (fun s => (Ret (), s));
  download_blob := Mem.download;
  content_as_bytes := fun content => Mem.tick (fun s => (Ret content, s));
  upload_blob := Mem.upload;
  get_container_client := fun _ container => Mem.tick (fun s => (Ret container, s));
  list_blobs := fun container s =>
    (Ret (iter_then_throw (Mem.records container (Mem.blobs s))
            Mem.ServiceRequestError), s);
  container_client_close := fun _ => Mem.tick (fun s => (Ret (), s))
|}.

Definition flaky_fixture : @World FlakySdk :=
  @Build_World FlakySdk (sdk fixture) N.of_nat 0.

(** ** Facts about events and iterators *)

Arguments uuid4_str : simpl never.

Lemma anext_events_failures {X} (it : AsyncIter X) :
  failures (anext_events it) = option_list (failure it).
Proof. induction it as [x rest IH| |e]; simpl; auto. Qed.

Lemma anext_events_quiet {X} (it : AsyncIter X) :
  log_of (anext_events it) = [] ∧ generated (anext_events it) = []
  ∧ forallb (λ ev, negb (is_write ev)) (anext_events it) = true.
Proof. induction it as [x rest IH| |e]; simpl; auto. Qed.

Lemma anext_events_release_free {X} (it : AsyncIter X) :
  forallb (λ ev, negb (is_release ev)) (anext_events it) = true
  ∧ List.filter is_release (anext_events it) = []
  ∧ existsb is_obtain (anext_events it) = false.
Proof. induction it as [x rest IH| |e]; simpl; auto. Qed.

Lemma anext_events_no_retry {X} (it : AsyncIter X) (rel : Event) :
  is_release rel = true →
  no_retry (anext_events it ++ [rel]) = true.
Proof.
  intros Hrel. induction it as [x rest IH| |e]; simpl; auto.
  by destruct (is_failure rel).
Qed.

Section Runs.
Context `{Sdk}.

Lemma async_list_comprehension_run {X} (it : AsyncIter X) (acc : list X) (w : World) :
  async_list_comprehension it acc w =
  {| result := match failure it with
               | None => Ret (acc ++ yielded it)
               | Some e => Raise e
               end;
     final := w;
     events := anext_events it |}.
Proof.
  revert acc. induction it as [x rest IH| |e]; intros acc; simpl.
  - rewrite IH. simpl. by rewrite <- app_assoc.
  - by rewrite app_nil_r.
  - reflexivity.
Qed.

End Runs.

Lemma log_of_app tr1 tr2 : log_of (tr1 ++ tr2) = log_of tr1 ++ log_of tr2.
Proof. apply omap_app. Qed.

Lemma generated_app tr1 tr2 : generated (tr1 ++ tr2) = generated tr1 ++ generated tr2.
Proof. apply omap_app. Qed.

Lemma failures_app tr1 tr2 : failures (tr1 ++ tr2) = failures tr1 ++ failures tr2.
Proof. apply omap_app. Qed.

Lemma yielded_iter_of_list {X} (xs : list X) : yielded (iter_of_list xs) = xs.
Proof. induction xs as [|x xs IH]; simpl; congruence. Qed.

(** ** Running the tasks by cases on what the SDK answers *)

Ltac unfold_tasks :=
  unfold blob_storage_download, blob_storage_upload, blob_storage_list,
    async_with, blob_client_manager, aclosing, close, container_client_closable,
    try_finally, mbind, M_bind, bind, mret, M_ret, try_catch, ret, raise,
    logger_info, uuid4, sdk_call;
  simpl.

(** One more SDK call of the run: it returned or it raised. *)
Ltac sdk_case :=
  match goal with
  | |- context [?f ?s] =>
      lazymatch type of (f s) with
      | (outcome _ * sdk_state)%type =>
          let E := fresh "Hcall" in
          destruct (f s) as [[?|?] ?] eqn:E; simpl
      end
  end.

(** The same, for a goal in which a call stands more than once: the calls
    are taken in the order the tasks make them, the releases last. *)
Ltac sdk_step :=
  let go call := (destruct call as [[?|?] ?] eqn:?; simpl) in
  match goal with
  | |- context [get_blob_client ?c ?k ?b ?s] => go (get_blob_client c k b s)
  | |- context [get_container_client ?c ?k ?s] => go (get_container_client c k s)
  | |- context [blob_aenter ?c ?s] => go (blob_aenter c s)
  | |- context [download_blob ?c ?s] => go (download_blob c s)
  | |- context [content_as_bytes ?c ?s] => go (content_as_bytes c s)
  | |- context [upload_blob ?c ?d ?o ?s] => go (upload_blob c d o s)
  | |- context [list_blobs ?c ?s] => go (list_blobs c s)
  | |- context [blob_aexit ?c ?x ?s] => go (blob_aexit c x s)
  | |- context [container_client_close ?c ?s] => go (container_client_close c s)
  end.

(** What the SDK's contract gives for the calls of a run. *)
Ltac use_contract V C :=
  repeat match goal with
  | E : get_blob_client _ _ _ _ = _ |- _ => apply (get_blob_client_spec V C) in E
  | E : blob_aenter _ _ = _ |- _ => apply (blob_aenter_spec V C) in E
  | E : blob_aexit _ _ _ = _ |- _ => apply (blob_aexit_spec V C) in E
  | E : download_blob _ _ = _ |- _ => apply (download_blob_spec V C) in E
  | E : content_as_bytes _ _ = _ |- _ => apply (content_as_bytes_spec V C) in E
  | E : upload_blob _ _ _ _ = _ |- _ => apply (upload_blob_spec V C) in E; simpl in E
  | E : get_container_client _ _ _ = _ |- _ =>
      apply (get_container_client_spec V C) in E
  | E : list_blobs _ _ = _ |- _ => apply (list_blobs_spec V C) in E
  | E : container_client_close _ _ = _ |- _ =>
      apply (container_client_close_spec V C) in E
  end;
  repeat match goal with
  | E : _ ∧ _ |- _ => destruct E
  | E : ∀ x, Ret ?a = Ret x → _ |- _ => specialize (E a eq_refl)
  | E : ∀ x, Raise _ = Ret x → _ |- _ => clear E
  | E : false = false → _ |- _ => specialize (E eq_refl)
  end.

(** [x ∈ l] for an explicit list [l], or its refutation. *)
Ltac decide_elem_of Hin :=
  first [ by repeat constructor
        | exfalso;
          repeat (apply elem_of_cons in Hin as [Hin|Hin]; [discriminate |]);
          by apply elem_of_nil in Hin ].

(** ** The tasks against every SDK *)

Section Generic.
Context `{Sdk}.

(** C9.  Entering [aclosing x] yields [x] itself and touches nothing;
    leaving it awaits [x.close()] and returns a false value, whatever
    exception is passed in; so [async with aclosing(x) as agen: block]
    is [agen = x; try: block finally: await agen.close()]: the block runs
    on [x], [close] runs once in the world the block leaves, whether the
    block returned or raised, and the two statements end alike. *)
Theorem aclosing_is_try_finally {T A} `{!Closable T}
    (x : T) (block : T → M A) (w : World) :
  aenter (aclosing x) w = {| result := Ret x; final := w; events := [] |}
  ∧ (∀ exc_info, aexit (aclosing x) exc_info w = (close x ≫= λ _, mret false) w)
  ∧ async_with (mret (aclosing x)) block w
    = (try_finally (block x) (close x) ≫= λ a, mret (Some a)) w
  ∧ events (async_with (mret (aclosing x)) block w)
    = events (block x w) ++ events (close x (final (block x w))).
Proof.
  split_and!; [reflexivity | reflexivity | |].
  - unfold async_with, try_finally, aclosing, mbind, M_bind, bind, mret, M_ret,
      try_catch, ret, raise; simpl.
    destruct (block x w) as [[a|e] w1 tr1]; simpl;
      destruct (close x w1) as [[[]|e'] w2 tr2]; simpl;
      by rewrite ?app_nil_r.
  - unfold async_with, aclosing, mbind, M_bind, bind, mret, M_ret,
      try_catch, ret, raise; simpl.
    destruct (block x w) as [[a|e] w1 tr1]; simpl;
      destruct (close x w1) as [[[]|e'] w2 tr2]; simpl;
      by rewrite ?app_nil_r.
Qed.

(** C7, as amended.  In every run of the three tasks, whatever the SDK
    answers.  Listing: if [get_container_client] returns a client,
    [close()] is called on it exactly once, after the block and as the
    task's last call, whether the enumeration succeeded or failed.
    Download and upload: if the blob client is entered, [__aexit__] is
    called on it exactly once, after the block and as the task's last
    call, whether the block returned or raised; if [__aenter__] raises,
    the client that [get_blob_client] returned is neither left nor
    closed.  So the literal reading holds for every listing, and for every
    download and upload in which [__aenter__] does not raise. *)
Theorem handle_released_once_entered (w : World) :
  (∀ container blob cred,
     blob_client_scoped cred container blob download_block w
       [Logged {| msg := "Downloading blob from container %s with key %s";
                  args := [Some container; Some blob] |}]
       (blob_storage_download container blob cred w)
     ∧ ((∀ e, Raised AEnter e ∉ events (blob_storage_download container blob cred w)) →
        every_handle_released (events (blob_storage_download container blob cred w))))
  ∧ (∀ data container cred blob overwrite,
     blob_client_scoped cred container (resolved_key w blob)
       (upload_block data overwrite)
       (match blob with
        | Some _ => w
        | None => {| sdk := sdk w; entropy := entropy w; draws := S (draws w) |}
        end)
       (Logged {| msg := "Uploading blob to container %s with key %s";
                  args := [Some container; blob] |}
        :: match blob with
           | Some _ => []
           | None => [Generated (resolved_key w blob)]
           end)
       (blob_storage_upload data container cred blob overwrite w)
     ∧ ((∀ e, Raised AEnter e
                ∉ events (blob_storage_upload data container cred blob overwrite w)) →
        every_handle_released
          (events (blob_storage_upload data container cred blob overwrite w))))
  ∧ (∀ container cred,
     container_client_scoped cred container list_block w
       [Logged {| msg := "Listing blobs from container %s";
                  args := [Some container] |}]
       (blob_storage_list container cred w)
     ∧ every_handle_released (events (blob_storage_list container cred w))).
Proof.
  unfold blob_client_scoped, container_client_scoped, every_handle_released,
    download_block, upload_block, list_block, with_sdk.
  split_and!.
  - intros container blob cred. unfold_tasks. split.
    + repeat sdk_step; by split_and!.
    + repeat sdk_case; intros Hnone Hobtained; try discriminate;
        try (exfalso; eapply Hnone; by repeat constructor);
        (split; [reflexivity | by eexists]).
  - intros data container cred blob overwrite. unfold_tasks. split.
    + destruct blob; simpl; repeat sdk_step; by split_and!.
    + destruct blob; simpl; repeat sdk_case; intros Hnone Hobtained;
        try discriminate;
        try (exfalso; eapply Hnone; by repeat constructor);
        (split; [reflexivity | by eexists]).
  - intros container cred. unfold_tasks.
    sdk_step; [| split; [by split_and! | discriminate]].
    sdk_step.
    + rewrite !async_list_comprehension_run. simpl.
      destruct (anext_events_release_free a0) as (Hfree & Hfilter & Hobtain).
      destruct (failure _); simpl; sdk_step; rewrite ?app_nil_r; simpl.
      all: split; [split_and!; [done | by rewrite <- ?app_assoc | done] |].
      all: intros _; rewrite List.filter_app, Hfilter; simpl.
      all: split; [reflexivity |]; eexists.
      all: split; [rewrite !app_comm_cons; apply last_snoc | reflexivity].
    + sdk_step; (split; [by split_and! |]); intros _;
        (split; [reflexivity | by eexists]).
Qed.

(** C5, as amended.  For the three tasks and whatever the SDK answers:
    a task that ends in an exception ends in the last error the SDK
    raised, unchanged; a task that returns saw no error; an error that is
    the only one of its run is what the caller observes, unchanged; and
    after an error no call is made but the release of the handle.  (When
    the release fails too, its error is the one observed.) *)
Theorem errors_surface_unchanged (w : World) :
  (∀ container blob cred,
     surfaces_errors (blob_storage_download container blob cred w))
  ∧ (∀ data container cred blob overwrite,
     surfaces_errors (blob_storage_upload data container cred blob overwrite w))
  ∧ (∀ container cred,
     surfaces_errors (blob_storage_list container cred w)).
Proof.
  unfold surfaces_errors. split_and!.
  - intros. unfold_tasks.
    repeat sdk_case; split_and!; intros; simplify_eq/=; done.
  - intros ??? blob ?. unfold_tasks.
    destruct blob; simpl; repeat sdk_case; split_and!; intros; simplify_eq/=; done.
  - intros container cred. unfold_tasks.
    sdk_case; [| split_and!; intros; simplify_eq/=; done].
    sdk_case; [| sdk_case; split_and!; intros; simplify_eq/=; done].
    rewrite async_list_comprehension_run.
    destruct (failure _) eqn:Hfail; simpl; sdk_case; rewrite app_nil_r;
      rewrite failures_app, anext_events_failures, Hfail;
      (split_and!; [intros; simplify_eq/=; done .. |]);
      by apply anext_events_no_retry.
Qed.

(** C6.  When [blob_storage_upload] returns, it returns the resolved key:
    the caller's when one was given, else the generated one; and the key
    is the one the write was made at: the task obtained the client for
    (container, that key) from the credentials object, entered it, called
    [upload_blob] on the entered client with the caller's data and
    overwrite flag, and left the client, each call returning, and the
    state the SDK is left in is the state after these four calls and no
    other; so for every SDK that honours the storage contract the data is
    held at (container, that key) afterwards. *)
Theorem upload_returns_resolved_key
    (w : World) (data : bytes) (container : string) (cred : Credentials)
    (blob : option string) (overwrite : bool) (key : string) :
  result (blob_storage_upload data container cred blob overwrite w) = Ret key →
  key = resolved_key w blob
  ∧ events (blob_storage_upload data container cred blob overwrite w)
    = Logged {| msg := "Uploading blob to container %s with key %s";
                args := [Some container; blob] |}
      :: match blob with None => [Generated key] | Some _ => [] end
      ++ [Returned (GetBlobClient container key); Returned AEnter;
          Returned (UploadBlob data overwrite); Returned AExit]
  ∧ (∃ client s1 entered s2 s3 s4,
       get_blob_client cred container key (sdk w) = (Ret client, s1)
       ∧ blob_aenter client s1 = (Ret entered, s2)
       ∧ upload_blob entered data overwrite s2 = (Ret (), s3)
       ∧ blob_aexit client None s3 = (Ret (), s4)
       ∧ sdk (final (blob_storage_upload data container cred blob overwrite w)) = s4)
  ∧ (∀ V : View,
       StorageContract V →
       contents V (sdk (final (blob_storage_upload data container cred blob overwrite w)))
       = <[(container, key) := data]> (contents V (sdk w))).
Proof.
  intros Hret.
  assert (key = resolved_key w blob) as ->.
  { revert Hret. unfold_tasks.
    destruct blob; simpl; repeat sdk_step; intros; by simplify_eq/=. }
  revert Hret. unfold_tasks.
  destruct blob; simpl; repeat sdk_step; intros Hret; try discriminate.
  all: repeat match goal with u : unit |- _ => destruct u end.
  all: split_and!; [reflexivity | reflexivity | |].
  all: try (eexists _, _, _, _, _, _;
            split_and!; [reflexivity | eassumption .. | reflexivity]).
  all: intros V contract; use_contract V contract; congruence.
Qed.

(** C10.  With the key omitted, [blob_storage_upload] first writes its one
    log record, whose key argument is [None], and only then generates the
    key; nothing is logged afterwards, and when the task returns, what it
    returns is the generated key. *)
Theorem upload_logs_before_generating
    (w : World) (data : bytes) (container : string) (cred : Credentials)
    (overwrite : bool) :
  ∃ rest,
    events (blob_storage_upload data container cred None overwrite w)
    = Logged {| msg := "Uploading blob to container %s with key %s";
                args := [Some container; None] |}
      :: Generated (uuid4_str (entropy w (draws w))) :: rest
    ∧ log_of rest = [] ∧ generated rest = []
    ∧ log_of (events (blob_storage_upload data container cred None overwrite w))
      = [{| msg := "Uploading blob to container %s with key %s";
            args := [Some container; None] |}]
    ∧ ∀ key,
        result (blob_storage_upload data container cred None overwrite w) = Ret key →
        key = uuid4_str (entropy w (draws w)).
Proof.
  unfold_tasks.
  repeat sdk_case; eexists; (split; [reflexivity |]);
    split_and!; try reflexivity; intros; by simplify_eq/=.
Qed.

(** C8.  Whatever the SDK answers, a download writes one record to the
    log, with the container and the key it was asked for, and generates
    no key and reads no entropy; among its calls none writes to the
    service; and whatever the SDK's own calls on the download path leave
    as it is, the download leaves as it is. *)
Theorem download_only_logs {X} (obs : sdk_state → X)
    (w : World) (container blob : string) (cred : Credentials) :
  reads_preserve obs →
  obs (sdk (final (blob_storage_download container blob cred w))) = obs (sdk w)
  ∧ entropy (final (blob_storage_download container blob cred w)) = entropy w
  ∧ draws (final (blob_storage_download container blob cred w)) = draws w
  ∧ log_of (events (blob_storage_download container blob cred w))
    = [{| msg := "Downloading blob from container %s with key %s";
          args := [Some container; Some blob] |}]
  ∧ generated (events (blob_storage_download container blob cred w)) = []
  ∧ forallb (λ ev, negb (is_write ev))
      (events (blob_storage_download container blob cred w)) = true.
Proof.
  intros (Hget & Henter & Hdownload & Hbytes & Hexit). unfold_tasks.
  repeat sdk_case; (split_and!; [| reflexivity ..]).
  all: repeat match goal with
    | E : get_blob_client ?c ?k ?b ?s = _ |- _ =>
        let P := fresh in
        pose proof (Hget c k b s) as P; rewrite E in P; simpl in P; clear E
    | E : blob_aenter ?c ?s = _ |- _ =>
        let P := fresh in
        pose proof (Henter c s) as P; rewrite E in P; simpl in P; clear E
    | E : download_blob ?c ?s = _ |- _ =>
        let P := fresh in
        pose proof (Hdownload c s) as P; rewrite E in P; simpl in P; clear E
    | E : content_as_bytes ?c ?s = _ |- _ =>
        let P := fresh in
        pose proof (Hbytes c s) as P; rewrite E in P; simpl in P; clear E
    | E : blob_aexit ?c ?x ?s = _ |- _ =>
        let P := fresh in
        pose proof (Hexit c x s) as P; rewrite E in P; simpl in P; clear E
    end.
  all: congruence.
Qed.

(** Whatever the SDK answers, an upload writes one record to the log,
    with the container and the key as the caller passed it, and calls
    [upload_blob] at most once; whenever the blob client was entered it
    calls it exactly once, on the entered client and with the caller's
    data and overwrite flag: the state the SDK is left in is the state
    after that one call of [upload_blob] and the [__aexit__] that follows
    it, and when the client was not entered it is the state [upload_blob]
    was never applied to. *)
Theorem upload_writes_once (w : World) (data : bytes) (container : string)
    (cred : Credentials) (blob : option string) (overwrite : bool) :
  log_of (events (blob_storage_upload data container cred blob overwrite w))
  = [{| msg := "Uploading blob to container %s with key %s";
        args := [Some container; blob] |}]
  ∧ (length (List.filter is_write
               (events (blob_storage_upload data container cred blob overwrite w)))
     ≤ 1)%nat
  ∧ (Returned AEnter ∈ events (blob_storage_upload data container cred blob overwrite w) →
     ∃ r : outcome unit, List.filter is_write
            (events (blob_storage_upload data container cred blob overwrite w))
          = [match r with
             | Ret _ => Returned (UploadBlob data overwrite)
             | Raise e => Raised (UploadBlob data overwrite) e
             end])
  ∧ match get_blob_client cred container (resolved_key w blob) (sdk w) with
    | (Raise _, s1) =>
        sdk (final (blob_storage_upload data container cred blob overwrite w)) = s1
        ∧ List.filter is_write
            (events (blob_storage_upload data container cred blob overwrite w)) = []
    | (Ret client, s1) =>
        match blob_aenter client s1 with
        | (Raise _, s2) =>
            sdk (final (blob_storage_upload data container cred blob overwrite w)) = s2
            ∧ List.filter is_write
                (events (blob_storage_upload data container cred blob overwrite w)) = []
        | (Ret entered, s2) =>
            let '(r, s3) := upload_blob entered data overwrite s2 in
            sdk (final (blob_storage_upload data container cred blob overwrite w))
            = (blob_aexit client (exc_of r) s3).2
            ∧ List.filter is_write
                (events (blob_storage_upload data container cred blob overwrite w))
              = [call_event (UploadBlob data overwrite) r]
        end
    end.
Proof.
  unfold_tasks.
  destruct blob; simpl; repeat sdk_step; (split_and!; [reflexivity | lia | | ..]).
  all: try (intros Hin; first
         [ by exists (Ret ())
         | by eexists (Raise _)
         | exfalso;
           repeat (apply elem_of_cons in Hin as [Hin|Hin]; [discriminate |]);
           by apply elem_of_nil in Hin ]).
  all: by repeat match goal with
       | E : ?f ?s = (_, _) |- context [?f ?s] => rewrite E; simpl
       end.
Qed.

(** Whatever the SDK answers, a listing writes one record to the log, with
    the container, generates no key, reads no entropy and makes no call
    that writes to the service. *)
Theorem list_only_logs (w : World) (container : string) (cred : Credentials) :
  log_of (events (blob_storage_list container cred w))
  = [{| msg := "Listing blobs from container %s"; args := [Some container] |}]
  ∧ generated (events (blob_storage_list container cred w)) = []
  ∧ forallb (λ ev, negb (is_write ev)) (events (blob_storage_list container cred w))
    = true
  ∧ entropy (final (blob_storage_list container cred w)) = entropy w
  ∧ draws (final (blob_storage_list container cred w)) = draws w.
Proof.
  unfold_tasks.
  sdk_case; [| by split_and!].
  sdk_case; [| sdk_case; by split_and!].
  rewrite async_list_comprehension_run.
  destruct (anext_events_quiet a0) as (Hlog & Hgen & Hwrite).
  destruct (failure _); simpl; sdk_case; rewrite app_nil_r;
    rewrite log_of_app, generated_app, forallb_app, Hlog, Hgen, Hwrite;
    by split_and!.
Qed.

End Generic.

(** ** The tasks against a storage service that honours its contract *)

Section Service.
Context `{Sdk} (V : View) (contract : StorageContract V).

Lemma download_of_held_blob (w : World) (container blob : string)
    (cred : Credentials) (content : bytes) :
  contents V (sdk w) !! (container, blob) = Some content →
  failures (events (blob_storage_download container blob cred w)) = [] →
  result (blob_storage_download container blob cred w) = Ret content.
Proof.
  unfold_tasks. repeat sdk_case; intros Hheld Hfail; try discriminate.
  use_contract V contract. congruence.
Qed.

(** C1.  If the service holds [content] at (container, blob) and no call
    of the SDK fails during the run, [blob_storage_download] returns
    exactly [content]: it obtains the client for that container and blob,
    enters it, downloads the blob, reads all its bytes and leaves the
    client, in this order and nothing else. *)
Theorem download_returns_content (w : World) (container blob : string)
    (cred : Credentials) (content : bytes) :
  contents V (sdk w) !! (container, blob) = Some content →
  failures (events (blob_storage_download container blob cred w)) = [] →
  result (blob_storage_download container blob cred w) = Ret content
  ∧ events (blob_storage_download container blob cred w)
    = [Logged {| msg := "Downloading blob from container %s with key %s";
                 args := [Some container; Some blob] |};
       Returned (GetBlobClient container blob); Returned AEnter;
       Returned DownloadBlob; Returned ContentAsBytes; Returned AExit].
Proof.
  unfold_tasks. repeat sdk_case; intros Hheld Hfail; try discriminate.
  split; [| reflexivity].
  (* the bytes read are the downloader's, which are those held at the
     client's scope, which is the pair asked for *)
  use_contract V contract. congruence.
Qed.

(** C2.  If the service holds an object at (container, K), an upload to
    key K with [overwrite] false fails in every run; the exception is the
    last error the SDK raised, unchanged, and when the client was left
    normally it is the error [upload_blob] raised on being asked to write
    with [overwrite=False]; the blobs the service holds, the one at K
    among them, are as they were. *)
Theorem upload_conflict_leaves_blob (w : World) (data : bytes)
    (container K : string) (cred : Credentials) (existing : bytes) :
  contents V (sdk w) !! (container, K) = Some existing →
  (∃ e, result (blob_storage_upload data container cred (Some K) false w) = Raise e
        ∧ last (failures (events
                  (blob_storage_upload data container cred (Some K) false w))) = Some e
        ∧ (Returned AExit ∈ events
             (blob_storage_upload data container cred (Some K) false w) →
           Raised (UploadBlob data false) e ∈ events
             (blob_storage_upload data container cred (Some K) false w)))
  ∧ contents V (sdk (final (blob_storage_upload data container cred (Some K) false w)))
    = contents V (sdk w)
  ∧ contents V (sdk (final (blob_storage_upload data container cred (Some K) false w)))
      !! (container, K) = Some existing.
Proof.
  intros Hheld. unfold_tasks. repeat sdk_case; use_contract V contract.
  (* [upload_blob] cannot have returned: something is held at its scope *)
  all: try (exfalso; congruence).
  all: split_and!; [eexists; split_and!; [reflexivity | reflexivity |] | |];
    try congruence.
  all: intros Hin; decide_elem_of Hin.
Qed.

(** C3, as amended.  With the key omitted, an upload during which no call
    of the SDK fails returns the key it generated with [uuid4], having
    put the data at (container, that key); a download of that key
    afterwards, if no call of the SDK fails, returns the data unchanged.
    The task does not look whether the generated key is already in the
    container: with [overwrite] false the SDK lets the upload through only
    if it is not, and with [overwrite] true an existing blob is replaced. *)
Theorem upload_generated_key_roundtrip (w : World) (data : bytes)
    (container : string) (cred : Credentials) (overwrite : bool) :
  let key := uuid4_str (entropy w (draws w)) in
  let up := blob_storage_upload data container cred None overwrite w in
  let down := blob_storage_download container key cred (final up) in
  failures (events up) = [] →
  result up = Ret key
  ∧ generated (events up) = [key]
  ∧ contents V (sdk (final up)) = <[(container, key) := data]> (contents V (sdk w))
  ∧ (overwrite = false → contents V (sdk w) !! (container, key) = None)
  ∧ (failures (events down) = [] → result down = Ret data).
Proof.
  intros key up down Hup.
  assert (result up = Ret key
          ∧ generated (events up) = [key]
          ∧ contents V (sdk (final up))
            = <[(container, key) := data]> (contents V (sdk w))
          ∧ (overwrite = false → contents V (sdk w) !! (container, key) = None))
    as (Hret & Hgen & Hput & Hfresh).
  { revert Hup. subst up key. unfold_tasks.
    repeat sdk_case; intros; try discriminate.
    use_contract V contract. split_and!; [done | done | congruence |].
    intros Hno. match goal with E : _ → _ !! _ = None |- _ => specialize (E Hno) end.
    congruence. }
  split_and!; [done .. |]. intros Hdown. subst down.
  apply download_of_held_blob; [| done].
  rewrite Hput. apply lookup_insert_eq.
Qed.

(** With a key K supplied, an upload during which no call of the SDK
    fails (so, with [overwrite] true, also when K already exists) returns
    K, having put the data at (container, K) in place of what was there;
    a download of K afterwards, if no call of the SDK fails, returns the
    new data. *)
Theorem upload_then_download_roundtrip (w : World) (data : bytes)
    (container K : string) (cred : Credentials) (overwrite : bool) :
  let up := blob_storage_upload data container cred (Some K) overwrite w in
  let down := blob_storage_download container K cred (final up) in
  failures (events up) = [] →
  result up = Ret K
  ∧ contents V (sdk (final up)) = <[(container, K) := data]> (contents V (sdk w))
  ∧ (failures (events down) = [] → result down = Ret data).
Proof.
  intros up down Hup.
  assert (result up = Ret K
          ∧ contents V (sdk (final up))
            = <[(container, K) := data]> (contents V (sdk w)))
    as (Hret & Hput).
  { revert Hup. subst up. unfold_tasks.
    repeat sdk_case; intros; try discriminate.
    use_contract V contract. split; [done | congruence]. }
  split_and!; [done .. |]. intros Hdown. subst down.
  apply download_of_held_blob; [| done].
  rewrite Hput. apply lookup_insert_eq.
Qed.

(** C4.  If no call of the SDK fails during the run, [blob_storage_list]
    returns, as a list, the records the SDK's pager for that container
    yields, each as yielded and in the order yielded, none left out and
    none added; the pager having run to its end, they are one record for
    every blob of the container and no other. *)
Theorem list_returns_every_record (w : World) (container : string)
    (cred : Credentials) :
  failures (events (blob_storage_list container cred w)) = [] →
  ∃ client s1 pages s2,
    get_container_client cred container (sdk w) = (Ret client, s1)
    ∧ list_blobs client s1 = (Ret pages, s2)
    ∧ failure pages = None
    ∧ result (blob_storage_list container cred w) = Ret (yielded pages)
    ∧ enumerates V container (contents V (sdk w)) (yielded pages).
Proof.
  unfold_tasks.
  sdk_case; [| discriminate].
  sdk_case; [| sdk_case; discriminate].
  rewrite async_list_comprehension_run.
  destruct (failure _) eqn:Hend; simpl; sdk_case; rewrite app_nil_r;
    rewrite failures_app, anext_events_failures, Hend; try discriminate.
  intros _. eexists _, _, _, _. split_and!; [reflexivity | eassumption | done .. |].
  use_contract V contract.
  match goal with E : failure _ = None → _ |- _ => specialize (E Hend) end.
  congruence.
Qed.

Lemma contract_reads_preserve : reads_preserve (contents V).
Proof.
  split_and!; intros.
  - destruct (get_blob_client _ _ _ _) as [r s'] eqn:E.
    by apply (get_blob_client_spec V contract) in E as [? _].
  - destruct (blob_aenter _ _) as [r s'] eqn:E.
    by apply (blob_aenter_spec V contract) in E as [? _].
  - destruct (download_blob _ _) as [r s'] eqn:E.
    by apply (download_blob_spec V contract) in E as [? _].
  - destruct (content_as_bytes _ _) as [r s'] eqn:E.
    by apply (content_as_bytes_spec V contract) in E as [? _].
  - destruct (blob_aexit _ _ _) as [r s'] eqn:E.
    by apply (blob_aexit_spec V contract) in E.
Qed.

End Service.

(** ** The in-memory double honours the contract *)

Module MemFacts.

(** A call either fails as planned or runs on the same blobs. *)
Lemma tick_cases {A} (k : Mem.state → outcome A * Mem.state) s r s' :
  Mem.tick k s = (r, s') →
  (Mem.blobs s' = Mem.blobs s ∧ ∃ e, r = Raise e)
  ∨ ∃ s0, Mem.blobs s0 = Mem.blobs s ∧ k s0 = (r, s').
Proof.
  unfold Mem.tick. destruct (Mem.faults s) as [|[e|] plan].
  - right. by exists s.
  - intros [= <- <-]. left. eauto.
  - right. by eexists {| Mem.blobs := Mem.blobs s; Mem.faults := plan |}.
Qed.

Lemma records_enumerate container m :
  enumerates mem_view container m (Mem.records container m).
Proof.
  unfold enumerates, Mem.records. simpl. rewrite <- list_fmap_compose.
  split.
  - apply NoDup_fmap_2_strong; [| apply NoDup_filter, NoDup_map_to_list].
    intros [[c1 k1] d1] [[c2 k2] d2]
      [Hc1 Hin1]%list_elem_of_filter [Hc2 Hin2]%list_elem_of_filter Hk.
    simpl in *. subst.
    apply elem_of_map_to_list in Hin1, Hin2. congruence.
  - intros key. rewrite list_elem_of_fmap. split.
    + intros ([[c k] d] & -> & [Hc Hin]%list_elem_of_filter). simpl in *. subst.
      apply elem_of_map_to_list in Hin. by exists d.
    + intros [d Hd]. exists (container, key, d). split; [done |].
      apply list_elem_of_filter. split; [done |]. by apply elem_of_map_to_list.
Qed.

Lemma contract : StorageContract mem_view.
Proof.
  split; simpl.
  - intros cred container blob s r s' [[-> [e ->]]|(s0 & <- & [= <- <-])]%tick_cases;
      split; naive_solver.
  - intros client s r s' [[-> [e ->]]|(s0 & <- & [= <- <-])]%tick_cases;
      split; naive_solver.
  - by intros client exc s r s' [[-> _]|(s0 & <- & [= <- <-])]%tick_cases.
  - intros client s r s' [[-> [e ->]]|(s0 & <- & Hk)]%tick_cases.
    { split; naive_solver. }
    destruct (Mem.blobs s0 !! client) eqn:Hheld; simplify_eq; split; naive_solver.
  - intros content s r s' [[-> [e ->]]|(s0 & <- & [= <- <-])]%tick_cases;
      split; naive_solver.
  - intros client data overwrite s r s' [[-> [e ->]]|(s0 & <- & Hk)]%tick_cases.
    { done. }
    destruct (Mem.blobs s0 !! client) eqn:Hheld, overwrite; simplify_eq; simpl;
      naive_solver.
  - intros cred container s r s' [[-> [e ->]]|(s0 & <- & [= <- <-])]%tick_cases;
      split; naive_solver.
  - intros container s r s'. unfold Mem.pager.
    destruct (Mem.faults s) as [|[e|] plan]; intros [= <- <-]; simpl;
      (split; [done |]); intros pages [= <-]; try done;
      intros _; rewrite yielded_iter_of_list; apply records_enumerate.
  - by intros client s r s' [[-> _]|(s0 & <- & [= <- <-])]%tick_cases.
Qed.

End MemFacts.

(** ** Concrete runs on the double *)

Example uuid4_str_zero : uuid4_str 0 = "00000000-0000-4000-8000-000000000000".
Proof. reflexivity. Qed.

Example uuid4_str_ones :
  uuid4_str (2 ^ 128 - 1) = "ffffffff-ffff-4fff-bfff-ffffffffffff".
Proof. reflexivity. Qed.

Example download_missing_blob :
  result (blob_storage_download "prefect" "nope.txt" "conn" fixture)
  = Raise Mem.ResourceNotFoundError.
Proof. reflexivity. Qed.

Example overwrite_replaces :
  contents mem_view
    (sdk (final (blob_storage_upload (bytes_of "new") "prefect" "conn"
                   (Some "a.csv") true fixture)))
    !! ("prefect", "a.csv") = Some (bytes_of "new").
Proof. reflexivity. Qed.

Example list_counts_three :
  length <$> match result (blob_storage_list "prefect" "conn" fixture) with
             | Ret blobs => Some blobs
             | Raise _ => None
             end = Some 3.
Proof. reflexivity. Qed.

(** When [__aenter__] itself raises, the block is not entered and no
    [__aexit__] is called. *)
Example enter_failure_calls_no_exit :
  events (blob_storage_download "prefect" "prefect.txt" "conn"
            {| sdk := {| Mem.blobs := Mem.blobs (sdk fixture);
                         Mem.faults := [None; Some Mem.ServiceRequestError] |};
               entropy := N.of_nat; draws := 0 |})
  = [Logged {| msg := "Downloading blob from container %s with key %s";
               args := [Some "prefect"; Some "prefect.txt"] |};
     Returned (GetBlobClient "prefect" "prefect.txt");
     Raised AEnter Mem.ServiceRequestError].
Proof. reflexivity. Qed.

(** C7 as the specification states it fails when entering the blob client
    fails: [get_blob_client] has returned a client, [__aenter__] raises on
    it, and the task ends in that error without having called [__aexit__]
    or any other release on the client it obtained. *)
Lemma obtained_client_not_released :
  events (blob_storage_download "prefect" "prefect.txt" "conn" fixture_enter_fault)
  = [Logged {| msg := "Downloading blob from container %s with key %s";
               args := [Some "prefect"; Some "prefect.txt"] |};
     Returned (GetBlobClient "prefect" "prefect.txt");
     Raised AEnter Mem.ServiceRequestError]
  ∧ result (blob_storage_download "prefect" "prefect.txt" "conn" fixture_enter_fault)
    = Raise Mem.ServiceRequestError
  ∧ List.filter is_release
      (events (blob_storage_download "prefect" "prefect.txt" "conn" fixture_enter_fault))
    = []
  ∧ ¬ every_handle_released
        (events (blob_storage_download "prefect" "prefect.txt" "conn"
                   fixture_enter_fault))
  ∧ ¬ every_handle_released
        (events (blob_storage_upload (bytes_of "fresh") "prefect" "conn"
                   (Some "fresh.txt") false fixture_enter_fault)).
Proof.
  split_and!; [reflexivity | reflexivity | reflexivity | |].
  - intros Hall. destruct (Hall eq_refl) as [Hone _]. discriminate.
  - intros Hall. destruct (Hall eq_refl) as [Hone _]. discriminate.
Qed.

(** C7 as amended, on the fixture: the download enters the client it
    obtained, and leaving it is the one release and the last event. *)
Lemma handle_released_once_entered_witness :
  existsb is_obtain
    (events (blob_storage_download "prefect" "prefect.txt" "conn" fixture)) = true
  ∧ length (List.filter is_release
              (events (blob_storage_download "prefect" "prefect.txt" "conn" fixture)))
    = 1
  ∧ ∃ rel,
      last (events (blob_storage_download "prefect" "prefect.txt" "conn" fixture))
      = Some rel
      ∧ is_release rel = true.
Proof.
  split; [reflexivity |].
  destruct (handle_released_once_entered fixture) as (Hdownload & _ & _).
  destruct (Hdownload "prefect" "prefect.txt" "conn") as [_ Hreleased].
  apply Hreleased; [| reflexivity].
  intros e Hin.
  repeat (apply elem_of_cons in Hin as [Hin|Hin]; [discriminate |]).
  by apply elem_of_nil in Hin.
Defined.

(** The run with two faults, in full. *)
Example two_faults_in_a_listing :
  events (blob_storage_list "prefect" "conn" fixture_two_faults)
  = [Logged {| msg := "Listing blobs from container %s"; args := [Some "prefect"] |};
     Returned (GetContainerClient "prefect"); Returned ListBlobs;
     Raised ANext Mem.ClientAuthenticationError;
     Raised Close Mem.ServiceRequestError]
  ∧ result (blob_storage_list "prefect" "conn" fixture_two_faults)
    = Raise Mem.ServiceRequestError.
Proof. split; reflexivity. Qed.

(** The generated key is already in the container: with [overwrite] the
    blob under it is replaced. *)
Example collision_with_overwrite :
  result (blob_storage_upload (bytes_of "new") "prefect" "conn" None true
            fixture_collision)
  = Ret "00000000-0000-4000-8000-000000000000"
  ∧ contents mem_view (sdk fixture_collision)
      !! ("prefect", "00000000-0000-4000-8000-000000000000") = Some (bytes_of "old")
  ∧ contents mem_view
      (sdk (final (blob_storage_upload (bytes_of "new") "prefect" "conn" None true
                     fixture_collision)))
      !! ("prefect", "00000000-0000-4000-8000-000000000000") = Some (bytes_of "new").
Proof. split_and!; reflexivity. Qed.

(** And without [overwrite] the SDK refuses the upload. *)
Example collision_without_overwrite :
  result (blob_storage_upload (bytes_of "new") "prefect" "conn" None false
            fixture_collision)
  = Raise Mem.ResourceExistsError.
Proof. reflexivity. Qed.

(** C1 on the fixture: the blob at ("prefect", "prefect.txt"). *)
Lemma download_returns_content_witness :
  contents mem_view (sdk fixture) !! ("prefect", "prefect.txt")
  = Some (bytes_of "prefect_works")
  ∧ failures (events (blob_storage_download "prefect" "prefect.txt" "conn" fixture)) = []
  ∧ result (blob_storage_download "prefect" "prefect.txt" "conn" fixture)
    = Ret (bytes_of "prefect_works").
Proof.
  split_and!; [reflexivity | reflexivity |].
  apply (download_returns_content mem_view MemFacts.contract fixture
           "prefect" "prefect.txt" "conn" (bytes_of "prefect_works"));
    reflexivity.
Defined.

(** C2 on the fixture: an upload over the blob at ("prefect",
    "prefect.txt") without [overwrite]. *)
Lemma upload_conflict_leaves_blob_witness :
  contents mem_view (sdk fixture) !! ("prefect", "prefect.txt")
  = Some (bytes_of "prefect_works")
  ∧ contents mem_view
      (sdk (final (blob_storage_upload (bytes_of "other") "prefect" "conn"
                     (Some "prefect.txt") false fixture)))
      !! ("prefect", "prefect.txt") = Some (bytes_of "prefect_works").
Proof.
  split; [reflexivity |].
  apply (upload_conflict_leaves_blob mem_view MemFacts.contract fixture
           (bytes_of "other") "prefect" "prefect.txt" "conn"
           (bytes_of "prefect_works")).
  reflexivity.
Defined.

(** C3 as amended, on the fixture: the generated key is new to the
    container. *)
Lemma upload_generated_key_roundtrip_witness :
  failures (events (blob_storage_upload (bytes_of "fresh") "prefect" "conn"
                      None false fixture)) = []
  ∧ result (blob_storage_upload (bytes_of "fresh") "prefect" "conn" None false fixture)
    = Ret "00000000-0000-4000-8000-000000000000"
  ∧ result (blob_storage_download "prefect" "00000000-0000-4000-8000-000000000000"
              "conn"
              (final (blob_storage_upload (bytes_of "fresh") "prefect" "conn"
                        None false fixture)))
    = Ret (bytes_of "fresh").
Proof.
  split; [reflexivity |].
  destruct (upload_generated_key_roundtrip mem_view MemFacts.contract fixture
              (bytes_of "fresh") "prefect" "conn" false eq_refl)
    as (Hret & _ & _ & _ & Hdown).
  split; [exact Hret | apply Hdown; reflexivity].
Defined.

(** C3 as the specification states it fails when the generated key is
    already in the container: with [overwrite] true the upload returns a key that
    did exist (and replaces the blob under it); with [overwrite] false it
    raises the SDK's conflict error. *)
Lemma generated_key_may_exist :
  ¬ fresh_key_roundtrip mem_view fixture_collision
      (bytes_of "new") "prefect" "conn" true
  ∧ ¬ fresh_key_roundtrip mem_view fixture_collision
      (bytes_of "new") "prefect" "conn" false.
Proof.
  split.
  - intros (key & Hret & Hfresh & _).
    vm_compute in Hret. injection Hret as <-.
    vm_compute in Hfresh. discriminate.
  - intros (key & Hret & _). vm_compute in Hret. discriminate.
Qed.

(** C4 on the fixture: the listing of the container "prefect". *)
Lemma list_returns_every_record_witness :
  failures (events (blob_storage_list "prefect" "conn" fixture)) = []
  ∧ ∃ client s1 pages s2,
      get_container_client "conn" "prefect" (sdk fixture) = (Ret client, s1)
      ∧ list_blobs client s1 = (Ret pages, s2)
      ∧ failure pages = None
      ∧ result (blob_storage_list "prefect" "conn" fixture) = Ret (yielded pages)
      ∧ enumerates mem_view "prefect"
          (contents mem_view (sdk fixture)) (yielded pages).
Proof.
  split; [reflexivity |].
  apply (list_returns_every_record mem_view MemFacts.contract fixture
           "prefect" "conn").
  reflexivity.
Defined.

(** C5 as the specification states it fails when two calls fail in one
    run: the page fetch raises an authentication error, [close()] then raises a
    connection error, and the caller observes the second, not the first. *)
Lemma release_error_replaces_block_error :
  ¬ every_failure_observed (blob_storage_list "prefect" "conn" fixture_two_faults).
Proof.
  intros Hall.
  specialize (Hall Mem.ClientAuthenticationError).
  assert (result (blob_storage_list "prefect" "conn" fixture_two_faults)
          = Raise Mem.ServiceRequestError) as Hres by reflexivity.
  rewrite Hres in Hall.
  assert (Mem.ClientAuthenticationError
          ∈ failures (events (blob_storage_list "prefect" "conn" fixture_two_faults)))
    as Hin by (vm_compute; constructor).
  specialize (Hall Hin). discriminate.
Qed.

(** C6 on the fixture: an upload with the key omitted returns the
    generated key, and the double holds the data under that key. *)
Lemma upload_returns_resolved_key_witness :
  result (blob_storage_upload (bytes_of "fresh") "prefect" "conn" None false fixture)
  = Ret "00000000-0000-4000-8000-000000000000"
  ∧ "00000000-0000-4000-8000-000000000000" = resolved_key fixture None
  ∧ events (blob_storage_upload (bytes_of "fresh") "prefect" "conn" None false fixture)
    = [Logged {| msg := "Uploading blob to container %s with key %s";
                 args := [Some "prefect"; None] |};
       Generated "00000000-0000-4000-8000-000000000000";
       Returned (GetBlobClient "prefect" "00000000-0000-4000-8000-000000000000");
       Returned AEnter; Returned (UploadBlob (bytes_of "fresh") false);
       Returned AExit]
  ∧ contents mem_view
      (sdk (final (blob_storage_upload (bytes_of "fresh") "prefect" "conn" None false
                     fixture)))
    = <[("prefect", "00000000-0000-4000-8000-000000000000") := bytes_of "fresh"]>
        (contents mem_view (sdk fixture)).
Proof.
  split; [reflexivity |].
  destruct (upload_returns_resolved_key fixture (bytes_of "fresh") "prefect" "conn"
              None false "00000000-0000-4000-8000-000000000000" eq_refl)
    as (Hkey & Hevents & _ & Hcontents).
  split_and!; [exact Hkey | exact Hevents | exact (Hcontents mem_view MemFacts.contract)].
Defined.

(** C8 on the fixture: the double's read calls leave its blobs alone, and
    so does the download. *)
Lemma download_only_logs_witness :
  reads_preserve (contents mem_view)
  ∧ contents mem_view
      (sdk (final (blob_storage_download "prefect" "prefect.txt" "conn" fixture)))
    = contents mem_view (sdk fixture)
  ∧ log_of (events (blob_storage_download "prefect" "prefect.txt" "conn" fixture))
    = [{| msg := "Downloading blob from container %s with key %s";
          args := [Some "prefect"; Some "prefect.txt"] |}].
Proof.
  split; [exact (contract_reads_preserve mem_view MemFacts.contract) |].
  destruct (download_only_logs (contents mem_view) fixture
              "prefect" "prefect.txt" "conn"
              (contract_reads_preserve mem_view MemFacts.contract))
    as (Hobs & _ & _ & Hlog & _).
  split; [exact Hobs | exact Hlog].
Defined.

(** An upload over the blob at ("prefect", "a.csv") with [overwrite], and
    the download after it. *)
Lemma upload_then_download_roundtrip_witness :
  failures (events (blob_storage_upload (bytes_of "new") "prefect" "conn"
                      (Some "a.csv") true fixture)) = []
  ∧ result (blob_storage_upload (bytes_of "new") "prefect" "conn"
              (Some "a.csv") true fixture) = Ret "a.csv"
  ∧ result (blob_storage_download "prefect" "a.csv" "conn"
              (final (blob_storage_upload (bytes_of "new") "prefect" "conn"
                        (Some "a.csv") true fixture)))
    = Ret (bytes_of "new").
Proof.
  split; [reflexivity |].
  destruct (upload_then_download_roundtrip mem_view MemFacts.contract fixture
              (bytes_of "new") "prefect" "a.csv" "conn" true eq_refl)
    as (Hret & _ & Hdown).
  split; [exact Hret | apply Hdown; reflexivity].
Defined.

(** ** More of the tasks' behaviour, against every SDK *)

Section GenericEdges.
Context `{Sdk}.

(** [aclosing] never swallows an exception: the statement
    [async with aclosing(x) as agen: block] never falls through with
    nothing bound, and when the block raises [e] the statement raises
    too: [e] itself when [close()] returns, and the error of [close()]
    when that raises. *)
Theorem aclosing_never_swallows {T A} `{!Closable T}
    (x : T) (block : T → M A) (w : World) :
  result (async_with (mret (aclosing x)) block w) ≠ Ret None
  ∧ ∀ e, result (block x w) = Raise e →
      result (async_with (mret (aclosing x)) block w)
      = match result (close x (final (block x w))) with
        | Ret _ => Raise e
        | Raise e' => Raise e'
        end.
Proof.
  unfold async_with, aclosing, mbind, M_bind, bind, mret, M_ret,
    try_catch, ret, raise; simpl.
  destruct (block x w) as [[a|e0] w1 tr1]; simpl;
    destruct (close x w1) as [[[]|e'] w2 tr2]; simpl;
    (split; [discriminate | by intros e [= <-]]).
Qed.

(** An upload generates a key exactly when the caller gave none, and then
    exactly one, from one read of 16 random bytes, in every outcome (also
    when the SDK fails before anything is written, so the key is lost);
    an upload with the key omitted that follows reads the next 16 bytes. *)
Theorem upload_generates_one_key (w : World) (data : bytes) (container : string)
    (cred : Credentials) (blob : option string) (overwrite : bool) :
  generated (events (blob_storage_upload data container cred blob overwrite w))
  = match blob with
    | None => [uuid4_str (entropy w (draws w))]
    | Some _ => []
    end
  ∧ draws (final (blob_storage_upload data container cred blob overwrite w))
    = match blob with None => S (draws w) | Some _ => draws w end
  ∧ entropy (final (blob_storage_upload data container cred blob overwrite w))
    = entropy w
  ∧ ∀ data' container' cred' overwrite',
      blob = None →
      generated
        (events (blob_storage_upload data' container' cred' None overwrite'
                   (final (blob_storage_upload data container cred blob overwrite w))))
      = [uuid4_str (entropy w (S (draws w)))].
Proof.
  assert (∀ (w : World) data container cred blob overwrite,
    generated (events (blob_storage_upload data container cred blob overwrite w))
    = match blob with
      | None => [uuid4_str (entropy w (draws w))]
      | Some _ => []
      end
    ∧ draws (final (blob_storage_upload data container cred blob overwrite w))
      = match blob with None => S (draws w) | Some _ => draws w end
    ∧ entropy (final (blob_storage_upload data container cred blob overwrite w))
      = entropy w) as Hone.
  { clear. intros w data container cred blob overwrite. unfold_tasks.
    destruct blob; simpl; repeat sdk_case; by split_and!. }
  destruct (Hone w data container cred blob overwrite) as (Hgen & Hdraws & Hentropy).
  split_and!; [done .. |].
  intros data' container' cred' overwrite' ->.
  destruct (Hone (final (blob_storage_upload data container cred None overwrite w))
              data' container' cred' None overwrite') as (-> & _ & _).
  by rewrite Hentropy, Hdraws.
Qed.

(** When the enumeration of a listing fails part-way, the records fetched
    so far are dropped: the task closes the container client and raises,
    the error of the enumeration when [close()] returns and the error of
    [close()] when that raises; it never returns a partial list. *)
Theorem list_failure_returns_no_partial_list (w : World) (container : string)
    (cred : Credentials) (client : ContainerClient) (s1 s2 : sdk_state)
    (pages : AsyncIter BlobProperties) (e : exn) :
  get_container_client cred container (sdk w) = (Ret client, s1) →
  list_blobs client s1 = (Ret pages, s2) →
  failure pages = Some e →
  result (blob_storage_list container cred w)
  = match (container_client_close client s2).1 with
    | Ret _ => Raise e
    | Raise e' => Raise e'
    end
  ∧ events (blob_storage_list container cred w)
    = Logged {| msg := "Listing blobs from container %s"; args := [Some container] |}
      :: Returned (GetContainerClient container) :: Returned ListBlobs
      :: (((λ _, Returned ANext) <$> yielded pages)
          ++ [Raised ANext e;
              match (container_client_close client s2).1 with
              | Ret _ => Returned Close
              | Raise e' => Raised Close e'
              end]).
Proof.
  intros Hget Hlist Hfail.
  assert (anext_events pages
          = ((λ _, Returned ANext) <$> yielded pages) ++ [Raised ANext e]) as Hev.
  { clear Hlist. induction pages as [x rest IH| |e0]; simpl in *.
    - by rewrite IH.
    - discriminate.
    - by injection Hfail as ->. }
  unfold_tasks. rewrite Hget. simpl. rewrite Hlist. simpl.
  rewrite async_list_comprehension_run, Hfail, Hev. simpl.
  destruct (container_client_close client s2) as [[[]|e'] s3]; simpl;
    by rewrite app_nil_r, <- app_assoc.
Qed.

End GenericEdges.

(** ** More of the tasks' behaviour, against a service that honours its
    contract *)

Section ServiceEdges.
Context `{Sdk} (V : View) (contract : StorageContract V).

(** A download of a key the service does not hold fails in every run,
    with the last error the SDK raised, unchanged; [download_blob] never
    returns, so no bytes are read; and the blobs are as they were. *)
Theorem download_of_missing_blob_fails (w : World) (container blob : string)
    (cred : Credentials) :
  contents V (sdk w) !! (container, blob) = None →
  (∃ e, result (blob_storage_download container blob cred w) = Raise e
        ∧ last (failures (events (blob_storage_download container blob cred w)))
          = Some e)
  ∧ (Returned DownloadBlob ∉ events (blob_storage_download container blob cred w))
  ∧ (Returned ContentAsBytes ∉ events (blob_storage_download container blob cred w))
  ∧ (∀ e, Raised ContentAsBytes e
            ∉ events (blob_storage_download container blob cred w))
  ∧ contents V (sdk (final (blob_storage_download container blob cred w)))
    = contents V (sdk w).
Proof.
  intros Hmissing. unfold_tasks. repeat sdk_case; use_contract V contract.
  (* [download_blob] cannot have returned: nothing is held at its scope *)
  all: try (exfalso; congruence).
  all: split_and!; [by eexists | | | | congruence].
  all: intros; intros Hin;
    repeat (apply elem_of_cons in Hin as [Hin|Hin]; [discriminate |]);
    by apply elem_of_nil in Hin.
Qed.

(** In every run, an upload changes at most the blob at (container, key),
    [key] being the caller's or the generated one: if [upload_blob]
    returned, the data is held there, also when the task then fails
    because leaving the client raised; if it did not, the blobs are as
    they were; and every other blob is as it was. *)
Theorem upload_changes_only_its_blob (w : World) (data : bytes)
    (container : string) (cred : Credentials) (blob : option string)
    (overwrite : bool) :
  (Returned (UploadBlob data overwrite)
     ∈ events (blob_storage_upload data container cred blob overwrite w) →
   contents V (sdk (final (blob_storage_upload data container cred blob overwrite w)))
   = <[(container, resolved_key w blob) := data]> (contents V (sdk w)))
  ∧ (Returned (UploadBlob data overwrite)
       ∉ events (blob_storage_upload data container cred blob overwrite w) →
     contents V (sdk (final (blob_storage_upload data container cred blob overwrite w)))
     = contents V (sdk w))
  ∧ ∀ other,
      other ≠ (container, resolved_key w blob) →
      contents V (sdk (final (blob_storage_upload data container cred blob overwrite w)))
        !! other
      = contents V (sdk w) !! other.
Proof.
  assert (∀ m m' : gmap (string * string) bytes, ∀ key other,
            m' = <[key := data]> m → other ≠ key → m' !! other = m !! other)
    as Hother by (intros m m' key other -> Hne; by apply lookup_insert_ne).
  unfold_tasks.
  destruct blob; simpl; repeat sdk_case; use_contract V contract.
  all: split_and!.
  all: try (intros Hin; first
         [ congruence
         | exfalso;
           repeat (apply elem_of_cons in Hin as [Hin|Hin]; [discriminate |]);
           by apply elem_of_nil in Hin
         | exfalso; apply Hin; by repeat constructor ]).
  all: intros other Hne;
    first [ congruence | eapply Hother; [| exact Hne]; congruence ].
Qed.

(** A listing during which no call of the SDK fails returns records that
    enumerate the container, and leaves the blobs as they were. *)
Lemma list_enumerates (w : World) (container : string) (cred : Credentials) :
  failures (events (blob_storage_list container cred w)) = [] →
  ∃ blobs,
    result (blob_storage_list container cred w) = Ret blobs
    ∧ enumerates V container (contents V (sdk w)) blobs
    ∧ contents V (sdk (final (blob_storage_list container cred w)))
      = contents V (sdk w).
Proof.
  unfold_tasks.
  sdk_case; [| discriminate].
  sdk_case; [| sdk_case; discriminate].
  rewrite async_list_comprehension_run.
  destruct (failure _) eqn:Hend; simpl; sdk_case; rewrite app_nil_r;
    rewrite failures_app, anext_events_failures, Hend; try discriminate.
  intros _. eexists. split; [reflexivity |].
  use_contract V contract.
  match goal with E : failure _ = None → _ |- _ => specialize (E Hend) end.
  split; congruence.
Qed.

(** Records that enumerate a container are as many as its blobs. *)
Lemma enumerates_length (container : string) (m : gmap (string * string) bytes)
    (records : list BlobProperties) :
  enumerates V container m records → length records = blobs_in container m.
Proof.
  intros [Hnodup Hin]. unfold blobs_in.
  set (P := fun entry : string * string * bytes => entry.1.1 = container).
  rewrite <- (length_fmap (record_name V) records).
  rewrite <- length_map_to_list.
  rewrite <- (length_fmap (fun entry : string * string * bytes => entry.1.2)
                (map_to_list (filter P m))).
  apply Permutation_length, NoDup_Permutation; [done | |].
  - apply NoDup_fmap_2_strong; [| apply NoDup_map_to_list].
    intros [[c1 k1] d1] [[c2 k2] d2]
      [Hl1 Hc1]%elem_of_map_to_list%map_lookup_filter_Some
      [Hl2 Hc2]%elem_of_map_to_list%map_lookup_filter_Some Hk.
    unfold P in *. simpl in *. subst. congruence.
  - intros key. rewrite Hin, list_elem_of_fmap. split.
    + intros [d Hd]. exists (container, key, d). split; [done |].
      apply elem_of_map_to_list, map_lookup_filter_Some. by split.
    + intros ([[c k] d] & -> & [Hl Hc]%elem_of_map_to_list%map_lookup_filter_Some).
      unfold P in *. simpl in *. subst. by exists d.
Qed.

(** A listing during which no call of the SDK fails returns as many
    records as the container holds blobs: none for a container that holds
    no blob. *)
Theorem list_counts_the_blobs (w : World) (container : string)
    (cred : Credentials) :
  failures (events (blob_storage_list container cred w)) = [] →
  ∃ blobs,
    result (blob_storage_list container cred w) = Ret blobs
    ∧ length blobs = blobs_in container (contents V (sdk w))
    ∧ (blobs_in container (contents V (sdk w)) = 0 → blobs = []).
Proof.
  intros (blobs & Hret & Henum & _)%list_enumerates.
  apply enumerates_length in Henum.
  exists blobs. split_and!; [done .. |].
  intros Hnone. apply nil_length_inv. congruence.
Qed.

(** An upload during which no call of the SDK fails returns the resolved
    key and has put the data there. *)
Lemma upload_puts (w : World) (data : bytes) (container : string)
    (cred : Credentials) (blob : option string) (overwrite : bool) :
  failures (events (blob_storage_upload data container cred blob overwrite w)) = [] →
  result (blob_storage_upload data container cred blob overwrite w)
  = Ret (resolved_key w blob)
  ∧ contents V (sdk (final (blob_storage_upload data container cred blob overwrite w)))
    = <[(container, resolved_key w blob) := data]> (contents V (sdk w)).
Proof.
  unfold_tasks.
  destruct blob; simpl; repeat sdk_case; intros; try discriminate;
    use_contract V contract; (split; [done | congruence]).
Qed.

(** After an upload, a listing of the container names the key the upload
    returned, and holds one record more than the container held blobs if
    the key was new and as many if it was not (no call of the SDK failing
    in either task). *)
Theorem list_after_upload_names_the_key (w : World) (data : bytes)
    (container : string) (cred : Credentials) (blob : option string)
    (overwrite : bool) :
  let up := blob_storage_upload data container cred blob overwrite w in
  let ls := blob_storage_list container cred (final up) in
  failures (events up) = [] →
  failures (events ls) = [] →
  ∃ key blobs,
    result up = Ret key
    ∧ result ls = Ret blobs
    ∧ key ∈ record_name V <$> blobs
    ∧ length blobs
      = match contents V (sdk w) !! (container, key) with
        | None => S (blobs_in container (contents V (sdk w)))
        | Some _ => blobs_in container (contents V (sdk w))
        end.
Proof.
  intros up ls [Hret Hput]%upload_puts (blobs & Hls & Henum & _)%list_enumerates.
  fold up in Hret, Hput. fold ls in Hls.
  exists (resolved_key w blob), blobs. split_and!; [done | done | |].
  - apply Henum. rewrite Hput, lookup_insert_eq. by eexists.
  - apply enumerates_length in Henum. rewrite Henum, Hput. unfold blobs_in.
    set (P := fun entry : string * string * bytes => entry.1.1 = container).
    destruct (contents V (sdk w) !! (container, resolved_key w blob)) as [old|] eqn:Hold.
    + rewrite (map_filter_insert_True P) by done.
      apply map_size_insert_Some. exists old.
      apply map_lookup_filter_Some. by split.
    + rewrite (map_filter_insert_True P) by done.
      apply map_size_insert_None.
      apply map_lookup_filter_None. by left.
Qed.

(** An upload to a key that is held, with [overwrite] false, fails and
    changes no blob. *)
Lemma upload_refused (w : World) (data : bytes) (container K : string)
    (cred : Credentials) :
  is_Some (contents V (sdk w) !! (container, K)) →
  (∃ e, result (blob_storage_upload data container cred (Some K) false w) = Raise e)
  ∧ contents V (sdk (final (blob_storage_upload data container cred (Some K) false w)))
    = contents V (sdk w).
Proof.
  intros [existing Hheld]. unfold_tasks. repeat sdk_case; use_contract V contract.
  all: try (exfalso; congruence).
  all: split; [by eexists | congruence].
Qed.

(** Uploading is not repeatable without [overwrite]: after an upload
    during which no call of the SDK failed, a second upload to the key it
    returned, with [overwrite] false, fails in every run, and the data of
    the first upload stays. *)
Theorem second_upload_without_overwrite_fails (w : World) (data data' : bytes)
    (container : string) (cred : Credentials) (blob : option string)
    (overwrite : bool) :
  let up := blob_storage_upload data container cred blob overwrite w in
  let again :=
    blob_storage_upload data' container cred (Some (resolved_key w blob)) false
      (final up) in
  failures (events up) = [] →
  result up = Ret (resolved_key w blob)
  ∧ (∃ e, result again = Raise e)
  ∧ contents V (sdk (final again)) !! (container, resolved_key w blob) = Some data.
Proof.
  intros up again [Hret Hput]%upload_puts. fold up in Hret, Hput.
  assert (contents V (sdk (final up)) !! (container, resolved_key w blob) = Some data)
    as Hheld by (rewrite Hput; apply lookup_insert_eq).
  destruct (upload_refused (final up) data' container (resolved_key w blob) cred)
    as [Hfail Hsame]; [by eexists |].
  fold again in Hfail, Hsame.
  split_and!; [done | done |]. by rewrite Hsame.
Qed.

End ServiceEdges.

(** ** More concrete runs *)

(** A listing whose pager fails after three records: the three are
    dropped and the pager's error is raised, after [close()]. *)
Lemma list_failure_returns_no_partial_list_witness :
  length (yielded (iter_then_throw (Mem.records "prefect" (Mem.blobs (sdk fixture)))
                     Mem.ServiceRequestError)) = 3
  ∧ result (H := FlakySdk)
      (blob_storage_list (H := FlakySdk) "prefect" "conn" flaky_fixture)
    = Raise Mem.ServiceRequestError.
Proof.
  split; [reflexivity |].
  apply (list_failure_returns_no_partial_list (H := FlakySdk) flaky_fixture
           "prefect" "conn" "prefect" (sdk fixture) (sdk fixture)
           (iter_then_throw (Mem.records "prefect" (Mem.blobs (sdk fixture)))
              Mem.ServiceRequestError)
           Mem.ServiceRequestError);
    reflexivity.
Defined.

(** A download of a key the fixture does not hold. *)
Lemma download_of_missing_blob_fails_witness :
  contents mem_view (sdk fixture) !! ("prefect", "nope.txt") = None
  ∧ ∃ e, result (blob_storage_download "prefect" "nope.txt" "conn" fixture) = Raise e
         ∧ last (failures (events
                   (blob_storage_download "prefect" "nope.txt" "conn" fixture)))
           = Some e.
Proof.
  split; [reflexivity |].
  apply (download_of_missing_blob_fails mem_view MemFacts.contract fixture
           "prefect" "nope.txt" "conn").
  reflexivity.
Defined.

(** An upload that fails after its write went through: leaving the client
    raises, the caller sees that error, and the data is held. *)
Lemma upload_changes_only_its_blob_witness :
  result (blob_storage_upload (bytes_of "new") "prefect" "conn" (Some "c.csv") false
            fixture_exit_fault)
  = Raise Mem.ServiceRequestError
  ∧ contents mem_view
      (sdk (final (blob_storage_upload (bytes_of "new") "prefect" "conn"
                     (Some "c.csv") false fixture_exit_fault)))
    = <[("prefect", "c.csv") := bytes_of "new"]>
        (contents mem_view (sdk fixture_exit_fault)).
Proof.
  split; [reflexivity |].
  apply (upload_changes_only_its_blob mem_view MemFacts.contract fixture_exit_fault
           (bytes_of "new") "prefect" "conn" (Some "c.csv") false).
  vm_compute. by repeat constructor.
Defined.

(** The listing of the fixture's container of three blobs, and of a
    container it does not hold. *)
Lemma list_counts_the_blobs_witness :
  failures (events (blob_storage_list "prefect" "conn" fixture)) = []
  ∧ blobs_in "prefect" (contents mem_view (sdk fixture)) = 3
  ∧ blobs_in "empty" (contents mem_view (sdk fixture)) = 0
  ∧ (∃ blobs,
       result (blob_storage_list "prefect" "conn" fixture) = Ret blobs
       ∧ length blobs = blobs_in "prefect" (contents mem_view (sdk fixture))
       ∧ (blobs_in "prefect" (contents mem_view (sdk fixture)) = 0 → blobs = []))
  ∧ result (blob_storage_list "empty" "conn" fixture) = Ret [].
Proof.
  split_and!; [reflexivity | reflexivity | reflexivity | |].
  - apply (list_counts_the_blobs mem_view MemFacts.contract fixture "prefect" "conn").
    reflexivity.
  - destruct (list_counts_the_blobs mem_view MemFacts.contract fixture "empty" "conn"
                eq_refl) as (blobs & -> & _ & Hnone).
    by rewrite Hnone.
Defined.

(** An upload of a new blob to the fixture's container, and the listing
    after it: four records, one of them naming the generated key. *)
Lemma list_after_upload_names_the_key_witness :
  failures (events (blob_storage_upload (bytes_of "fresh") "prefect" "conn"
                      None false fixture)) = []
  ∧ failures (events
      (blob_storage_list "prefect" "conn"
         (final (blob_storage_upload (bytes_of "fresh") "prefect" "conn"
                   None false fixture)))) = []
  ∧ ∃ key blobs,
      result (blob_storage_upload (bytes_of "fresh") "prefect" "conn" None false fixture)
      = Ret key
      ∧ result (blob_storage_list "prefect" "conn"
                  (final (blob_storage_upload (bytes_of "fresh") "prefect" "conn"
                            None false fixture)))
        = Ret blobs
      ∧ key ∈ record_name mem_view <$> blobs
      ∧ length blobs
        = match contents mem_view (sdk fixture) !! ("prefect", key) with
          | None => S (blobs_in "prefect" (contents mem_view (sdk fixture)))
          | Some _ => blobs_in "prefect" (contents mem_view (sdk fixture))
          end.
Proof.
  split_and!; [reflexivity | reflexivity |].
  apply (list_after_upload_names_the_key mem_view MemFacts.contract fixture
           (bytes_of "fresh") "prefect" "conn" None false);
    reflexivity.
Defined.

(** Two uploads to the same new key of the fixture, neither with
    [overwrite]: the second is refused. *)
Lemma second_upload_without_overwrite_fails_witness :
  failures (events (blob_storage_upload (bytes_of "one") "prefect" "conn"
                      (Some "c.csv") false fixture)) = []
  ∧ result (blob_storage_upload (bytes_of "two") "prefect" "conn" (Some "c.csv") false
              (final (blob_storage_upload (bytes_of "one") "prefect" "conn"
                        (Some "c.csv") false fixture)))
    = Raise Mem.ResourceExistsError
  ∧ contents mem_view
      (sdk (final (blob_storage_upload (bytes_of "two") "prefect" "conn"
                     (Some "c.csv") false
                     (final (blob_storage_upload (bytes_of "one") "prefect" "conn"
                               (Some "c.csv") false fixture)))))
      !! ("prefect", "c.csv") = Some (bytes_of "one").
Proof.
  split_and!; [reflexivity | reflexivity |].
  apply (second_upload_without_overwrite_fails mem_view MemFacts.contract fixture
           (bytes_of "one") (bytes_of "two") "prefect" "conn" (Some "c.csv") false).
  reflexivity.
Defined.
